(** * Port Register: a shallow embedding of [server.js]

    The registry server keeps a list of port leases in a JSON document,
    prunes the expired ones lazily, and reconciles the leases with what
    [netstat -ano] reports as bound.  This development embeds the request
    handlers of [server.js] as functions over an explicit store and an
    explicit environment (clock readings and the outcome of each external
    command) and proves the properties the specification states of them.

    Modelling conventions.
    - JavaScript numbers are integers in [Z]; [NaN] is [None] in the type
      [num].  Fractions and values beyond the safe integer range are
      outside the model.
    - Strings are [string]s of 8-bit characters; the white space class is
      the part of JavaScript's that fits in 8 bits.
    - Every call of [Date.now()] or [new Date()] is an argument of the
      handler that makes it. *)

From Stdlib Require Import ZArith String Ascii List Lia.
From stdpp Require Import gmap strings list sorting pretty.

Local Open Scope string_scope.
Local Open Scope list_scope.
Local Open Scope Z_scope.

(** ** JavaScript values and the primitives the server relies on *)

Module Js.

(** A number, where [None] is [NaN]. *)
Abbreviation num := (option Z).

(** The values a JSON body field or a query parameter can hold;
    [VUndefined] is an absent field.  Arrays and objects are left out. *)
Inductive value :=
| VUndefined
| VNull
| VBool (b : bool)
| VNum (n : Z)
| VStr (s : string).

Definition value_eqb (a b : value) : bool :=
  match a, b with
  | VUndefined, VUndefined => true
  | VNull, VNull => true
  | VBool x, VBool y => Bool.eqb x y
  | VNum x, VNum y => x =? y
  | VStr x, VStr y => String.eqb x y
  | _, _ => false
  end.

(** ToBoolean. *)
Definition truthy (v : value) : bool :=
  match v with
  | VUndefined | VNull => false
  | VBool b => b
  | VNum n => negb (n =? 0)
  | VStr s => negb (String.eqb s "")
  end.

(** ToBoolean of a number: [NaN] and [0] are falsy. *)
Definition truthyNum (n : num) : bool :=
  match n with
  | Some k => negb (k =? 0)
  | None => false
  end.

Definition code (c : ascii) : Z := Z.of_N (N_of_ascii c).

(** [\s], and the characters [trim] and [parseInt] skip: TAB, LF, VT, FF,
    CR, SPACE and NBSP. *)
Definition isSpace (c : ascii) : bool :=
  let n := code c in
  ((9 <=? n) && (n <=? 13)) || (n =? 32) || (n =? 160).

(** [\d] *)
Definition isDigit (c : ascii) : bool :=
  let n := code c in (48 <=? n) && (n <=? 57).

Fixpoint trimStart (s : string) : string :=
  match s with
  | String c s' => if isSpace c then trimStart s' else s
  | EmptyString => EmptyString
  end.

(** Drops trailing white space: a character is kept when it is not white
    space or when something is kept after it. *)
Fixpoint trimEnd (s : string) : string :=
  match s with
  | String c s' =>
      match trimEnd s' with
      | EmptyString => if isSpace c then EmptyString else String c EmptyString
      | t => String c t
      end
  | EmptyString => EmptyString
  end.

(** [String.prototype.trim] *)
Definition trim (s : string) : string := trimEnd (trimStart s).

(** The value of [c] as a digit in the given radix, if it is one. *)
Definition digitVal (radix : Z) (c : ascii) : option Z :=
  let n := code c in
  let v :=
    if (48 <=? n) && (n <=? 57) then Some (n - 48)
    else if (97 <=? n) && (n <=? 122) then Some (n - 87)
    else if (65 <=? n) && (n <=? 90) then Some (n - 55)
    else None in
  match v with
  | Some d => if d <? radix then Some d else None
  | None => None
  end.

(** Reads the longest prefix of digits; [acc] is [None] until a digit has
    been seen. *)
Fixpoint readDigits (radix : Z) (s : string) (acc : num) : num :=
  match s with
  | String c s' =>
      match digitVal radix c with
      | Some d => readDigits radix s' (Some (radix * default 0 acc + d))
      | None => acc
      end
  | EmptyString => acc
  end.

(** [parseInt(s)] without a radix: leading white space, a sign, a
    [0x]/[0X] prefix selecting radix 16, then digits; [NaN] when there is
    no digit. *)
Definition parseIntStr (s : string) : num :=
  let s1 := trimStart s in
  let '(sign, s2) :=
    match s1 with
    | String "-" r => (-1, r)
    | String "+" r => (1, r)
    | _ => (1, s1)
    end in
  let '(radix, s3) :=
    match s2 with
    | String "0" (String "x" r) => (16, r)
    | String "0" (String "X" r) => (16, r)
    | _ => (10, s2)
    end in
  match readDigits radix s3 None with
  | Some v => Some (sign * v)
  | None => None
  end.

(** [parseInt(v)]: the argument is converted to a string first.  An
    integer prints as its decimal numeral, which reads back as itself;
    [undefined], [null], [true] and [false] print as words. *)
Definition parseInt (v : value) : num :=
  match v with
  | VStr s => parseIntStr s
  | VNum n => Some n
  | VBool true => parseIntStr "true"
  | VBool false => parseIntStr "false"
  | VNull => parseIntStr "null"
  | VUndefined => parseIntStr "undefined"
  end.

(** [a || d] on numbers. *)
Definition orElse (a : num) (d : Z) : Z :=
  match a with
  | Some k => if k =? 0 then d else k
  | None => d
  end.

(** [typeof v === 'string'] *)
Definition isString (v : value) : bool :=
  match v with VStr _ => true | _ => false end.

(** The characters of a value that is a string. *)
Definition strOf (v : value) : string :=
  match v with VStr s => s | _ => "" end.

(** [a * b] and [a + b] with one side a number that may be [NaN]. *)
Definition mulNum (a : num) (b : Z) : num :=
  match a with Some k => Some (k * b) | None => None end.

Definition addNum (a : Z) (b : num) : num :=
  match b with Some k => Some (a + k) | None => None end.

(** [!v] where [v] is [null], [true] or [false]. *)
Definition notNullable (v : option bool) : bool :=
  match v with
  | Some true => false
  | Some false | None => true
  end.

End Js.

(** ** Regular expressions, matched by backtracking as JavaScript does *)

Module Regex.

(** The fragment the server's patterns are written in.  Quantifiers apply
    to character classes only; a group records the text it matched, and
    groups are numbered in the order they close. *)
Inductive re :=
| Lit (s : string)
| Cat (r1 r2 : re)
| Alt (r1 r2 : re)
| Star (p : ascii -> bool)
| LazyStar (p : ascii -> bool)
| Plus (p : ascii -> bool)
| Grp (r : re).

Fixpoint stripPrefix (l s : string) : option string :=
  match l, s with
  | EmptyString, _ => Some s
  | String a l', String b s' =>
      if Ascii.eqb a b then stripPrefix l' s' else None
  | String _ _, EmptyString => None
  end.

(** The first [n] characters of [s]. *)
Fixpoint takeStr (n : nat) (s : string) : string :=
  match n, s with
  | S n', String c s' => String c (takeStr n' s')
  | _, _ => EmptyString
  end.

(** What was consumed between the input [s] and its suffix [rest]. *)
Definition consumed (s rest : string) : string :=
  takeStr (String.length s - String.length rest)%nat s.

Section Matcher.
Context {A : Type}.

(** [p*], greedy: take as many as possible, give back one at a time. *)
Fixpoint greedy (p : ascii -> bool) (s : string)
    (k : string -> option A) : option A :=
  match s with
  | String c s' =>
      if p c then
        match greedy p s' k with
        | Some x => Some x
        | None => k s
        end
      else k s
  | EmptyString => k s
  end.

(** [p*?], lazy: try to go on first, take one more on failure. *)
Fixpoint lazy (p : ascii -> bool) (s : string)
    (k : string -> option A) : option A :=
  match k s with
  | Some x => Some x
  | None =>
      match s with
      | String c s' => if p c then lazy p s' k else None
      | EmptyString => None
      end
  end.

(** Matches [r] at the start of [s]; [k] is the rest of the pattern and
    receives the remaining input and the groups closed so far. *)
Fixpoint run (r : re) (s : string) (caps : list string)
    (k : string -> list string -> option A) : option A :=
  match r with
  | Lit l =>
      match stripPrefix l s with
      | Some s' => k s' caps
      | None => None
      end
  | Cat r1 r2 => run r1 s caps (fun s' caps' => run r2 s' caps' k)
  | Alt r1 r2 =>
      match run r1 s caps k with
      | Some x => Some x
      | None => run r2 s caps k
      end
  | Star p => greedy p s (fun s' => k s' caps)
  | LazyStar p => lazy p s (fun s' => k s' caps)
  | Plus p =>
      match s with
      | String c s' =>
          if p c then greedy p s' (fun s'' => k s'' caps) else None
      | EmptyString => None
      end
  | Grp r1 =>
      run r1 s caps (fun s' caps' => k s' (caps' ++ [consumed s s'])%list)
  end.
End Matcher.

(** [s.match(/^r/)]: the groups of the match at position 0, if any. *)
Definition matchStart (r : re) (s : string) : option (list string) :=
  run r s [] (fun _ caps => Some caps).

(** [s.split(/\r?\n/)] *)
Fixpoint splitLines (s : string) (cur : string) : list string :=
  match s with
  | EmptyString => [cur]
  | String c t =>
      if Ascii.eqb c "010" then cur :: splitLines t ""
      else if Ascii.eqb c "013" then
        match t with
        | String c2 t2 =>
            if Ascii.eqb c2 "010" then cur :: splitLines t2 ""
            else splitLines t (cur +:+ String c "")
        | EmptyString => splitLines t (cur +:+ String c "")
        end
      else splitLines t (cur +:+ String c "")
  end.

End Regex.

(** ** OS port detection *)

Module Scanner.
Import Js Regex.

(** What [netstat] says of a bound port. *)
Record binding := { pid : num; proto : string; state : string }.

Definition seq (rs : list re) : re := foldr Cat (Lit "") rs.

Definition notSpace (c : ascii) : bool := negb (isSpace c).
Definition digitOrDot (c : ascii) : bool := isDigit c || Ascii.eqb c ".".
(** [.] matches anything but a line terminator. *)
Definition anyChar (c : ascii) : bool :=
  negb (Ascii.eqb c "010" || Ascii.eqb c "013").
Definition notQuote (c : ascii) : bool := negb (Ascii.eqb c "034").
Definition quote : string := String "034" "".

(** [/^\s+(TCP|UDP)\s+[\d.]*:(\d+)\s+\S+\s+(\S+)\s+(\d+)/] *)
Definition rowV4 : re :=
  seq [ Plus isSpace; Grp (Alt (Lit "TCP") (Lit "UDP")); Plus isSpace;
        Star digitOrDot; Lit ":"; Grp (Plus isDigit); Plus isSpace;
        Plus notSpace; Plus isSpace; Grp (Plus notSpace); Plus isSpace;
        Grp (Plus isDigit) ].

(** [/^\s+(TCP|UDP)\s+\[.*?\]:(\d+)\s+\S+\s+(\S+)\s+(\d+)/] *)
Definition rowV6 : re :=
  seq [ Plus isSpace; Grp (Alt (Lit "TCP") (Lit "UDP")); Plus isSpace;
        Lit "["; LazyStar anyChar; Lit "]:"; Grp (Plus isDigit);
        Plus isSpace; Plus notSpace; Plus isSpace; Grp (Plus notSpace);
        Plus isSpace; Grp (Plus isDigit) ].

(** The pattern of a [tasklist] CSV row, where Q is the double quote:
    [/^Q([^Q]+)Q,Q(\d+)Q/] *)
Definition taskRow : re :=
  seq [ Lit quote; Grp (Plus notQuote); Lit (quote +:+ "," +:+ quote);
        Grp (Plus isDigit); Lit quote ].

(** [line.match(rowV4) || line.match(rowV6)], destructured into
    [proto], [portStr], [state] and [pidStr]. *)
Definition matchRow (line : string)
    : option (string * string * string * string) :=
  let m :=
    match matchStart rowV4 line with
    | Some caps => Some caps
    | None => matchStart rowV6 line
    end in
  match m with
  | Some [proto; portStr; state; pidStr] =>
      Some (proto, portStr, state, pidStr)
  | _ => None
  end.

(** [portMap.has(port)] *)
Definition has {V} (m : gmap Z V) (k : Z) : bool :=
  bool_decide (is_Some (m !! k)).

(** One turn of the loop of [getSystemPorts]. *)
Definition scanLine (portMap : gmap Z binding) (line : string)
    : gmap Z binding :=
  match matchRow line with
  | None => portMap
  | Some (proto, portStr, state, pidStr) =>
      if String.eqb proto "TCP" && negb (String.eqb state "LISTENING")
      then portMap
      else
        let pid := parseIntStr pidStr in
        match parseIntStr portStr with
        | Some port =>
            if (port >? 0) && (port <=? 65535) && negb (has portMap port)
            then
              <[port := {| pid := pid; proto := proto;
                           state := if String.eqb proto "UDP" then "UDP"
                                    else state |}]> portMap
            else portMap
        | None => portMap
        end
  end.

(** The map built from the text [netstat -ano] printed. *)
Definition parsePorts (output : string) : gmap Z binding :=
  fold_left scanLine (splitLines output "") ∅.

(** [getSystemPorts()]; [netstat] is what [execSync] returned, [None]
    when it threw (the command failed or ran out of time).  The result
    [None] is the [null] of the source. *)
Definition getSystemPorts (netstat : option string)
    : option (gmap Z binding) :=
  match netstat with
  | Some output => Some (parsePorts output)
  | None => None
  end.

(** One turn of the loop of [getPidMap]: a later row replaces an earlier
    one with the same pid. *)
Definition scanTask (map : gmap num string) (line : string)
    : gmap num string :=
  match matchStart taskRow line with
  | Some [name; pidStr] => <[parseIntStr pidStr := name]> map
  | _ => map
  end.

(** [getPidMap()]; [tasklist] is what [execSync] returned. *)
Definition getPidMap (tasklist : option string) : gmap num string :=
  match tasklist with
  | Some out => fold_left scanTask (splitLines out "") ∅
  | None => ∅
  end.

(** [isPortInUseByOS(port, portMap)]; the outer [None] of [portMap] is an
    omitted argument, for which [netstat] is run. *)
Definition isPortInUseByOS (port : Z)
    (portMap : option (option (gmap Z binding)))
    (netstat : option string) : option bool :=
  let map :=
    match portMap with
    | Some m => m
    | None => getSystemPorts netstat
    end in
  match map with
  | None => None
  | Some m => Some (has m port)
  end.

End Scanner.

(** ** Data persistence *)

Module Store.
Import Js.

(** A lease as it is stored in [ports.json].  [registeredAt] and
    [lastHeartbeat] are the instants their ISO strings denote;
    [expiresAt] is [None] when the document holds [null] for it, which is
    how [NaN] is written. *)
Record registration := {
  port : Z;
  agent : string;
  reason : string;
  registeredAt : Z;
  expiresAt : num;
  id : string;
  lastHeartbeat : option Z
}.

(** The data file: not there yet, there but not JSON, or a document with
    its list of registrations. *)
Inductive file :=
| Missing
| Garbled
| Doc (registrations : list registration).

Definition saveData (registrations : list registration) : file :=
  Doc registrations.

(** [loadData()]: the file it leaves behind and the registrations it
    returns.  A missing file is created empty first. *)
Definition loadData (f : file) : file * list registration :=
  let f1 :=
    match f with
    | Missing => saveData []
    | _ => f
    end in
  match f1 with
  | Doc registrations => (f1, registrations)
  | _ => (f1, [])
  end.

(** What the next [loadData()] would return. *)
Definition stored (f : file) : list registration := snd (loadData f).

(** The filter of [pruneExpired]: a falsy [expiresAt] never expires. *)
Definition alive (now : Z) (r : registration) : bool :=
  if negb (truthyNum (expiresAt r)) then true
  else
    match expiresAt r with
    | Some e => e >? now
    | None => false
    end.

Definition pruneExpired (now : Z) (registrations : list registration)
    : list registration :=
  filter (λ r, alive now r) registrations.

End Store.

(** ** API routes *)

Module Api.
Import Js Scanner Store.

(** 30 minutes default TTL *)
Definition TTL_MS : Z := 30 * 60 * 1000.

(** A registration joined with the OS view, as [GET /api/ports] returns
    it.  [None] is [null]. *)
Record enrichedRegistration := {
  reg : registration;
  osInUse : option bool;
  osPid : option num;
  osProto : option string;
  osState : option string;
  osProcess : option string
}.

(** A bound port joined with the registry, as [GET /api/ports/system]
    returns it. *)
Record systemPort := {
  boundPort : Z;
  bound : binding;
  process : option string;
  registered : bool;
  registrationOf : option registration
}.

(** The three recommendations of the check route. *)
Inductive recommendation :=
| RegisteredBy (agent reason : string)
| InUseByOS
| AppearsFree.

(** The error bodies, by the message they carry. *)
Inductive error :=
| NetstatFailed
| InvalidPort
| MissingAgent
| MissingReason
| AlreadyRegistered (registeredBy : registration)
| NotRegistered
| AgentMismatch
| NoneAvailable.

Inductive body :=
| Listing (registrations : list enrichedRegistration) (count : nat)
| SystemPorts (ports : list systemPort) (total : nat)
| Checked (port : Z) (available : bool) (registeredBy : option registration)
    (osInUse : option bool) (advice : recommendation)
| Registered (registration : registration)
| Refreshed (expiresAt : Z)
| Released (released : registration)
| Cleared
| Suggested (port : Z)
| Failed (e : error).

Record response := { status : Z; content : body }.

Definition reply (status : Z) (content : body) : response :=
  {| status := status; content := content |}.

(** [registrations.find(r => r.port === port)], with the index
    [findIndex] gives. *)
Definition findPort (port : num) (registrations : list registration)
    : option (nat * registration) :=
  list_find (λ r, Some (Store.port r) = port) registrations.

(** [GET /api/ports] *)
Definition listPorts (now : Z) (netstat tasklist : option string)
    (f : file) : response * file :=
  let '(_, loaded) := loadData f in
  let registrations := pruneExpired now loaded in
  let f' := saveData registrations in
  let portMap := getSystemPorts netstat in
  let pidMap :=
    match portMap with
    | Some _ => getPidMap tasklist
    | None => ∅
    end in
  let enriched :=
    map (λ r,
      let info :=
        match portMap with
        | Some m => m !! Store.port r
        | None => None
        end in
      {| reg := r;
         osInUse :=
           match portMap with
           | Some m => Some (has m (Store.port r))
           | None => None
           end;
         osPid := pid <$> info;
         osProto := proto <$> info;
         osState := state <$> info;
         osProcess :=
           match info with
           | Some b =>
               match pidMap !! pid b with
               | Some name => if String.eqb name "" then None else Some name
               | None => None
               end
           | None => None
           end |}) registrations in
  (reply 200 (Listing enriched (length enriched)), f').

(** [new Map(registrations.map(r => [r.port, r]))]: the last entry for a
    port stays. *)
Definition regMapOf (registrations : list registration)
    : gmap Z registration :=
  fold_left (λ m r, <[Store.port r := r]> m) registrations ∅.

(** [GET /api/ports/system] *)
Definition systemPorts (now : Z) (netstat tasklist : option string)
    (f : file) : response * file :=
  match getSystemPorts netstat with
  | None => (reply 500 (Failed NetstatFailed), f)
  | Some portMap =>
      let pidMap := getPidMap tasklist in
      let '(f1, loaded) := loadData f in
      let registrations := pruneExpired now loaded in
      let regMap := regMapOf registrations in
      let allPorts := merge_sort Z.le (fst <$> map_to_list portMap) in
      let annotated :=
        omap (λ p,
          match portMap !! p with
          | Some b =>
              Some {| boundPort := p;
                      bound := b;
                      process :=
                        match pidMap !! pid b with
                        | Some name =>
                            if String.eqb name "" then None else Some name
                        | None => None
                        end;
                      registered := has regMap p;
                      registrationOf := regMap !! p |}
          | None => None
          end) allPorts in
      (reply 200 (SystemPorts annotated (length annotated)), f1)
  end.

(** [GET /api/ports/check/:port] *)
Definition checkPort (portParam : string) (now : Z)
    (netstat : option string) (f : file) : response * file :=
  match parseIntStr portParam with
  | None => (reply 400 (Failed InvalidPort), f)
  | Some port =>
      if (port <? 1) || (port >? 65535)
      then (reply 400 (Failed InvalidPort), f)
      else
        let '(_, loaded) := loadData f in
        let registrations := pruneExpired now loaded in
        let f' := saveData registrations in
        let registered := snd <$> findPort (Some port) registrations in
        let osInUse := isPortInUseByOS port None netstat in
        (reply 200
           (Checked port
              (negb (bool_decide (is_Some registered))
               && notNullable osInUse)
              registered
              osInUse
              match registered with
              | Some r => RegisteredBy (agent r) (reason r)
              | None =>
                  if notNullable osInUse then AppearsFree else InUseByOS
              end),
         f')
  end.

(** [POST /api/ports/register].  [pruneAt] is the clock as
    [pruneExpired] reads it, [now] the one the handler reads for the
    expiry and the id, [stamp] the one behind [registeredAt].  The
    handler reads [parseInt(port)] again wherever it needs the number;
    here it is read once. *)
Definition register (port agent reason ttlMinutes : value)
    (pruneAt now stamp : Z) (f : file) : response * file :=
  match parseInt port with
  | None => (reply 400 (Failed InvalidPort), f)
  | Some portNum =>
      if negb (truthy port) || (portNum <? 1) || (portNum >? 65535)
      then (reply 400 (Failed InvalidPort), f)
      else
        if negb (truthy agent) || negb (isString agent)
             || negb (truthy (VStr (trim (strOf agent))))
        then (reply 400 (Failed MissingAgent), f)
        else if negb (truthy reason) || negb (isString reason)
                || negb (truthy (VStr (trim (strOf reason))))
        then (reply 400 (Failed MissingReason), f)
        else
          let '(f1, loaded) := loadData f in
          let registrations := pruneExpired pruneAt loaded in
          match findPort (Some portNum) registrations with
          | Some (_, existing) =>
              (reply 409 (Failed (AlreadyRegistered existing)), f1)
          | None =>
              let ttl :=
                if truthy ttlMinutes
                then mulNum (parseInt ttlMinutes) (60 * 1000)
                else Some TTL_MS in
              let registration :=
                {| Store.port := portNum;
                   agent := trim (strOf agent);
                   reason := trim (strOf reason);
                   registeredAt := stamp;
                   expiresAt := addNum now ttl;
                   id := pretty portNum +:+ "-" +:+ pretty now;
                   lastHeartbeat := None |} in
              (reply 201 (Registered registration),
               saveData (registrations ++ [registration]))
          end
  end.

(** What a heartbeat writes into the registration it found. *)
Definition refresh (now stamp : Z) (r : registration) : registration :=
  {| Store.port := Store.port r;
     agent := agent r;
     reason := reason r;
     registeredAt := registeredAt r;
     expiresAt := Some (now + TTL_MS);
     id := id r;
     lastHeartbeat := Some stamp |}.

(** [agent && reg.agent !== agent] *)
Definition agentMismatch (requested : value) (r : registration) : bool :=
  truthy requested && negb (value_eqb (VStr (agent r)) requested).

(** [POST /api/ports/:port/heartbeat].  The registration found is
    changed in place, so the list saved is the one loaded with that
    element replaced. *)
Definition heartbeat (portParam : string) (agent : value) (now stamp : Z)
    (f : file) : response * file :=
  let port := parseIntStr portParam in
  let '(f1, registrations) := loadData f in
  match findPort port registrations with
  | None => (reply 404 (Failed NotRegistered), f1)
  | Some (idx, r) =>
      if agentMismatch agent r
      then (reply 403 (Failed AgentMismatch), f1)
      else
        (reply 200 (Refreshed (now + TTL_MS)),
         saveData (<[idx := refresh now stamp r]> registrations))
  end.

(** [DELETE /api/ports/:port] *)
Definition release (portParam : string) (agent : value) (f : file)
    : response * file :=
  let port := parseIntStr portParam in
  let '(f1, registrations) := loadData f in
  match findPort port registrations with
  | None => (reply 404 (Failed NotRegistered), f1)
  | Some (idx, r) =>
      if agentMismatch agent r
      then (reply 403 (Failed AgentMismatch), f1)
      else (reply 200 (Released r), saveData (delete idx registrations))
  end.

(** [DELETE /api/ports] *)
Definition clearAll (f : file) : response * file :=
  (reply 200 Cleared, saveData []).

(** The test of the loop of the suggest route. *)
Definition free (registeredPorts : gset Z)
    (portMap : option (gmap Z binding)) (netstat : option string)
    (p : Z) : bool :=
  negb (bool_decide (p ∈ registeredPorts))
  && notNullable (isPortInUseByOS p (Some portMap) netstat).

(** [for (let p = min; p <= max; p++)], with [n] turns left. *)
Fixpoint firstFree (isFree : Z → bool) (n : nat) (p : Z) : option Z :=
  match n with
  | O => None
  | S n' => if isFree p then Some p else firstFree isFree n' (p + 1)
  end.

(** The bounds the suggest route scans between. *)
Definition suggestRange (min max : value) : Z * Z :=
  (orElse (parseInt min) 3000, orElse (parseInt max) 9999).

(** [GET /api/suggest] *)
Definition suggest (qmin qmax : value) (now : Z) (netstat : option string)
    (f : file) : response * file :=
  let '(min, max) := suggestRange qmin qmax in
  let '(f1, loaded) := loadData f in
  let registrations := pruneExpired now loaded in
  let registeredPorts : gset Z :=
    list_to_set (Store.port <$> registrations) in
  let portMap := getSystemPorts netstat in
  match firstFree (free registeredPorts portMap netstat)
          (Z.to_nat (max - min + 1)) min with
  | Some p => (reply 200 (Suggested p), f1)
  | None => (reply 404 (Failed NoneAvailable), f1)
  end.

End Api.

(** ** The server as a transition system over the data file *)

Module Server.
Import Js Scanner Store Api.

(** A request with what the handler reads from its environment while it
    serves it. *)
Inductive request :=
| GetPorts (now : Z) (netstat tasklist : option string)
| GetSystem (now : Z) (netstat tasklist : option string)
| GetCheck (portParam : string) (now : Z) (netstat : option string)
| PostRegister (port agent reason ttlMinutes : value)
    (pruneAt now stamp : Z)
| PostHeartbeat (portParam : string) (agent : value) (now stamp : Z)
| DeletePort (portParam : string) (agent : value)
| DeleteAll
| GetSuggest (min max : value) (now : Z) (netstat : option string).

Definition handle (rq : request) (f : file) : response * file :=
  match rq with
  | GetPorts now netstat tasklist => listPorts now netstat tasklist f
  | GetSystem now netstat tasklist => systemPorts now netstat tasklist f
  | GetCheck portParam now netstat => checkPort portParam now netstat f
  | PostRegister port agent reason ttlMinutes pruneAt now stamp =>
      register port agent reason ttlMinutes pruneAt now stamp f
  | PostHeartbeat portParam agent now stamp =>
      heartbeat portParam agent now stamp f
  | DeletePort portParam agent => release portParam agent f
  | DeleteAll => clearAll f
  | GetSuggest min max now netstat => suggest min max now netstat f
  end.

(** The data file after a sequence of requests, served one at a time. *)
Definition serve (rqs : list request) (f : file) : file :=
  fold_left (λ f rq, snd (handle rq f)) rqs f.

(** The registrations for port [p] that are active at time [now]. *)
Definition activeFor (now p : Z) (f : file) : list registration :=
  filter (λ r, Store.port r = p) (pruneExpired now (stored f)).

(** No two stored registrations share a port. *)
Definition distinctPorts (f : file) : Prop :=
  NoDup (Store.port <$> stored f).

End Server.

(** ** The dashboard: the pure helpers of [public/app.js] *)

Module Dashboard.
Import Js Store Api.

(** [str.replace(/c/g, by)] for a pattern that is the one character [c]
    and a replacement without [$]. *)
Fixpoint replaceAll (c : ascii) (by_ : string) (str : string) : string :=
  match str with
  | EmptyString => EmptyString
  | String a rest =>
      if Ascii.eqb a c then by_ +:+ replaceAll c by_ rest
      else String a (replaceAll c by_ rest)
  end.

(** [escapeHtml(str)] for a string: the five replacements, in the order
    of the source.  The double quote is the character 34. *)
Definition escapeHtml (str : string) : string :=
  replaceAll "'" "&#39;"
    (replaceAll "034" "&quot;"
       (replaceAll ">" "&gt;"
          (replaceAll "<" "&lt;"
             (replaceAll "&" "&amp;" str)))).

(** What [formatRelative] prints: a dash, [Expired], [Hh Mm], [Mm Ss] or
    [Ss], with the numbers that go into the text. *)
Inductive relativeText :=
| NoTime
| ExpiredText
| HoursMinutes (h m : Z)
| MinutesSeconds (m s : Z)
| SecondsOnly (s : Z).

(** [formatRelative(isoStr)], for the [expiresAt] of a row of the listing,
    a number of milliseconds or [null]; [now] is [Date.now()]. *)
Definition formatRelative (isoStr : num) (now : Z) : relativeText :=
  if negb (truthyNum isoStr) then NoTime
  else
    match isoStr with
    | None => NoTime
    | Some instant =>
        let diff := instant - now in
        if diff <? 0 then ExpiredText
        else
          let m := diff / 60000 in
          let s := Z.rem diff 60000 / 1000 in
          if m >? 60 then HoursMinutes (m / 60) (Z.rem m 60)
          else if m >? 0 then MinutesSeconds m s
          else SecondsOnly s
    end.

(** [isExpiringSoon(isoStr)] *)
Definition isExpiringSoon (isoStr : num) (now : Z) : bool :=
  if negb (truthyNum isoStr) then false
  else
    match isoStr with
    | None => false
    | Some instant => instant - now <? 5 * 60 * 1000
    end.

(** [toLowerCase] on one 8-bit character: the letters A to Z and the
    accented capitals 192 to 222, the sign 215 apart. *)
Definition lowerChar (c : ascii) : ascii :=
  let n := code c in
  if ((65 <=? n) && (n <=? 90))
     || ((192 <=? n) && (n <=? 222) && negb (n =? 215))
  then ascii_of_N (Z.to_N (n + 32))
  else c.

Fixpoint toLowerCase (s : string) : string :=
  match s with
  | EmptyString => EmptyString
  | String c rest => String (lowerChar c) (toLowerCase rest)
  end.

(** [s.includes(q)] *)
Fixpoint includes (s q : string) : bool :=
  if String.prefix q s then true
  else
    match s with
    | EmptyString => false
    | String _ rest => includes rest q
    end.

(** [applyFilter()], with the rows last fetched and the text of the
    search box as arguments. *)
Definition applyFilter (allRegistrations : list enrichedRegistration)
    (searchValue : string) : list enrichedRegistration :=
  let q := toLowerCase (trim searchValue) in
  if negb (truthy (VStr q)) then allRegistrations
  else
    List.filter
      (λ r,
         includes (pretty (Store.port (reg r))) q
         || includes (toLowerCase (agent (reg r))) q
         || includes (toLowerCase (reason (reg r))) q)
      allRegistrations.

End Dashboard.

Import Js Regex Scanner Store Api Server.

(** * The notions the properties are stated with *)

(** The port a request names, when it is a number in [1, 65535]. *)
Definition portInRange (v : value) : option Z :=
  match parseInt v with
  | Some n => if (1 <=? n) && (n <=? 65535) then Some n else None
  | None => None
  end.

(** Not a string, or nothing left of it after trimming. *)
Definition blank (v : value) : bool :=
  negb (isString v) || String.eqb (trim (strOf v)) "".

(** The registration a successful [register] writes. *)
Definition created (portNum : Z) (agent reason : value) (expiry : num)
    (now stamp : Z) : registration :=
  {| Store.port := portNum;
     agent := trim (strOf agent);
     reason := trim (strOf reason);
     registeredAt := stamp;
     expiresAt := expiry;
     id := pretty portNum +:+ "-" +:+ pretty now;
     lastHeartbeat := None |}.

(** The TTL as the specification words it: the constant when the field is
    not supplied, the minutes supplied otherwise. *)
Definition ttlAsSpecified (ttlMinutes : value) : num :=
  match ttlMinutes with
  | VUndefined => Some TTL_MS
  | supplied => mulNum (parseInt supplied) (60 * 1000)
  end.

(** A port is open at time [now] when no registration that is still alive
    holds it and [netstat] did not show it bound. *)
Definition open (now : Z) (f : file) (output : string) (p : Z) : Prop :=
  (p ∉ Store.port <$> pruneExpired now (stored f))
  ∧ parsePorts output !! p = None.

(** What a row binds when nothing has been seen before it. *)
Definition alone (line : string) : gmap Z binding := scanLine ∅ line.

(** A registration as the register route writes them. *)
Definition wellFormed (r : registration) : Prop :=
  1 ≤ Store.port r ≤ 65535
  ∧ agent r ≠ "" ∧ trim (agent r) = agent r
  ∧ reason r ≠ "" ∧ trim (reason r) = reason r.

(** The text of one character once escaped. *)
Definition escapeChar (c : ascii) : string :=
  if Ascii.eqb c "&" then "&amp;"
  else if Ascii.eqb c "<" then "&lt;"
  else if Ascii.eqb c ">" then "&gt;"
  else if Ascii.eqb c "034" then "&quot;"
  else if Ascii.eqb c "'" then "&#39;"
  else String c "".

(** The characters HTML reads as markup. *)
Definition markup (c : ascii) : bool :=
  Ascii.eqb c "<" || Ascii.eqb c ">" || Ascii.eqb c "034"
  || Ascii.eqb c "'".

(** [q] occurs in [s]. *)
Definition occursIn (q s : string) : Prop :=
  ∃ before after, s = before +:+ q +:+ after.

(** ** Sample data *)

(** A lease of agent [a] on port 8080, good until 1801000. *)
Definition leaseOfA : registration :=
  {| Store.port := 8080; agent := "a"; reason := "api";
     registeredAt := 1000; expiresAt := Some 1801000;
     id := "8080-1000"; lastHeartbeat := None |}.

(** The same on port 5000. *)
Definition lease5000 : registration :=
  {| Store.port := 5000; agent := "a"; reason := "api";
     registeredAt := 1000; expiresAt := Some 1801000;
     id := "5000-1000"; lastHeartbeat := None |}.

(** A lease on port 8080 taken at time 0 for one minute. *)
Definition staleLease : registration :=
  {| Store.port := 8080; agent := "a"; reason := "api";
     registeredAt := 0; expiresAt := Some 60000;
     id := "8080-0"; lastHeartbeat := None |}.

(** A listening socket seen on IPv4 and on IPv6, an outbound connection,
    and a UDP row. *)
Definition netstatSample : string :=
  "  TCP    0.0.0.0:135       0.0.0.0:0        LISTENING       1044"
  +:+ String "013" (String "010"
  "  TCP    10.0.0.5:50000    52.1.1.1:443     ESTABLISHED     900")
  +:+ String "013" (String "010"
  "  TCP    [::]:135          [::]:0           LISTENING       77")
  +:+ String "013" (String "010"
  "  UDP    0.0.0.0:5355      *:*              bound           2223").

(** A row of [tasklist /FO CSV /NH]. *)
Definition taskLine (name pidStr : string) : string :=
  quote +:+ name +:+ quote +:+ "," +:+ quote +:+ pidStr +:+ quote
  +:+ "," +:+ quote +:+ "Console" +:+ quote.

(** Two rows for the pid 1044. *)
Definition tasklistSample : string :=
  taskLine "node.exe" "1044"
  +:+ String "013" (String "010" (taskLine "code.exe" "1044")).

(** * Properties *)

(** ** The store *)

Lemma stored_saveData (l : list registration) : stored (saveData l) = l.
Proof. reflexivity. Qed.

Lemma loadData_stored (f : file) : snd (loadData f) = stored f.
Proof. reflexivity. Qed.

Lemma stored_after_load (f : file) : stored (fst (loadData f)) = stored f.
Proof. by destruct f. Qed.

Lemma loadData_eq (f : file) : loadData f = (fst (loadData f), stored f).
Proof. by destruct f. Qed.

(** Steps into a handler up to the point where it has loaded the file. *)
Ltac enter handler f := unfold handler; rewrite (loadData_eq f).

Lemma loadData_Doc (f : file) (r : registration) :
  r ∈ stored f → fst (loadData f) = f.
Proof. destruct f; simpl; try done; by intros ?%elem_of_nil. Qed.

Lemma pruneExpired_sublist now l : pruneExpired now l `sublist_of` l.
Proof. apply sublist_filter. Qed.

Lemma pruneExpired_idempotent now l :
  pruneExpired now (pruneExpired now l) = pruneExpired now l.
Proof.
  unfold pruneExpired. rewrite list_filter_filter.
  apply list_filter_iff. tauto.
Qed.

Lemma elem_of_pruneExpired now l r :
  r ∈ pruneExpired now l ↔ alive now r = true ∧ r ∈ l.
Proof.
  unfold pruneExpired. rewrite list_elem_of_filter.
  by rewrite Is_true_true.
Qed.

(** An entry with a truthy expiry that has passed is never alive. *)
Lemma alive_false now r e :
  expiresAt r = Some e → e ≠ 0 → e ≤ now → alive now r = false.
Proof.
  intros He Hz Hle. unfold alive. rewrite He. simpl.
  destruct (Z.eqb_spec e 0); [done|]. simpl. lia.
Qed.

(** Nothing in a pruned list has a truthy expiry that has passed. *)
Lemma pruneExpired_none_expired now l r e :
  r ∈ pruneExpired now l → expiresAt r = Some e → e ≠ 0 → now < e.
Proof.
  intros [Halive _]%elem_of_pruneExpired He Hz.
  destruct (Z.lt_ge_cases now e) as [|Hle]; [done|].
  rewrite (alive_false now r e He Hz) in Halive by lia. discriminate.
Qed.

(** ** Ports stay distinct *)

Lemma NoDup_ports_sublist (l k : list registration) :
  l `sublist_of` k → NoDup (Store.port <$> k) → NoDup (Store.port <$> l).
Proof. intros Hs Hk. eapply sublist_NoDup; [done|]. by apply fmap_sublist. Qed.

Lemma findPort_None p l :
  findPort (Some p) l = None → p ∉ Store.port <$> l.
Proof.
  unfold findPort. rewrite list_find_None, Forall_forall.
  intros Hall (r & -> & Hr)%list_elem_of_fmap. by apply (Hall r).
Qed.

Lemma findPort_Some p (l : list registration) (i : nat) r :
  findPort p l = Some (i, r) → l !! i = Some r ∧ Some (Store.port r) = p.
Proof. unfold findPort. rewrite list_find_Some. tauto. Qed.

Lemma ports_refresh (l : list registration) (i : nat) r now stamp :
  l !! i = Some r →
  Store.port <$> <[i := refresh now stamp r]> l = Store.port <$> l.
Proof.
  intros Hi. rewrite list_fmap_insert. simpl.
  apply list_insert_id. by rewrite list_lookup_fmap, Hi.
Qed.

Lemma none_with_port (l : list registration) (p : Z) :
  p ∉ Store.port <$> l → filter (λ r, Store.port r = p) l = [].
Proof.
  induction l as [|r l IH]; [done|].
  rewrite fmap_cons, not_elem_of_cons. intros [Hne Hl].
  rewrite filter_cons_False by congruence. by apply IH.
Qed.

Lemma at_most_one_with_port (l : list registration) (p : Z) :
  NoDup (Store.port <$> l) →
  (length (filter (λ r, Store.port r = p) l) ≤ 1)%nat.
Proof.
  induction l as [|r l IH]; [simpl; lia|].
  rewrite fmap_cons, NoDup_cons. intros [Hr Hl]. rewrite filter_cons.
  destruct (decide (Store.port r = p)) as [<-|]; [|by apply IH].
  rewrite none_with_port by done. simpl. lia.
Qed.

(** What a request can leave in the file: the list it found, a sublist of
    it, the list with one registration refreshed in place, or the pruned
    list with one registration for a port that was not in it. *)
Lemma handle_stored (rq : request) (f : file) :
  let l := stored f in
  let l' := stored (snd (handle rq f)) in
  l' `sublist_of` l
  ∨ (∃ i r now stamp, l !! i = Some r ∧ l' = <[i := refresh now stamp r]> l)
  ∨ (∃ now r, l' = pruneExpired now l ++ [r]
              ∧ Store.port r ∉ Store.port <$> pruneExpired now l).
Proof.
  destruct rq as [now netstat tasklist|now netstat tasklist
                 |portParam now netstat
                 |rport ragent rreason ttlMinutes pruneAt now stamp
                 |portParam ragent now stamp|portParam ragent|
                 |qmin qmax now netstat]; simpl.
  - left. enter listPorts f. simpl.
    apply pruneExpired_sublist.
  - left. enter systemPorts f.
    destruct (getSystemPorts netstat); simpl; [|done].
    by rewrite stored_after_load.
  - left. enter checkPort f.
    destruct (parseIntStr portParam) as [port|]; [|reflexivity].
    destruct (_ || _); simpl; [reflexivity|]. apply pruneExpired_sublist.
  - enter register f.
    destruct (parseInt rport) as [portNum|]; [|left; reflexivity].
    destruct (negb (truthy rport) || _ || _); [left; reflexivity|].
    destruct (negb (truthy ragent) || _ || _); [left; reflexivity|].
    destruct (negb (truthy rreason) || _ || _); [left; reflexivity|].
    destruct (findPort _ _) as [[i e]|] eqn:Hfind; simpl.
    + left. by rewrite stored_after_load.
    + right. right. eexists pruneAt, _. split; [done|]. simpl.
      by apply findPort_None.
  - enter heartbeat f.
    destruct (findPort _ _) as [[i r]|] eqn:Hfind; simpl.
    + apply findPort_Some in Hfind as [Hi _].
      destruct (agentMismatch ragent r); simpl.
      * left. by rewrite stored_after_load.
      * right. left. by exists i, r, now, stamp.
    + left. by rewrite stored_after_load.
  - left. enter release f.
    destruct (findPort _ _) as [[i r]|] eqn:Hfind; simpl.
    + destruct (agentMismatch ragent r); simpl.
      * by rewrite stored_after_load.
      * apply sublist_delete.
    + by rewrite stored_after_load.
  - left. apply sublist_nil_l.
  - left. enter suggest f.
    destruct (suggestRange qmin qmax). case_match; simpl;
      by rewrite stored_after_load.
Qed.

Lemma handle_distinctPorts (rq : request) (f : file) :
  distinctPorts f → distinctPorts (snd (handle rq f)).
Proof.
  unfold distinctPorts. intros Hf.
  destruct (handle_stored rq f)
    as [Hsub|[(i & r & now & stamp & Hi & ->)|(now & r & -> & Hr)]].
  - by eapply NoDup_ports_sublist.
  - by rewrite ports_refresh.
  - rewrite fmap_app. apply NoDup_app. split_and!.
    + eapply NoDup_ports_sublist; [apply pruneExpired_sublist|done].
    + intros p Hp. simpl. rewrite list_elem_of_singleton. by intros ->.
    + apply NoDup_singleton.
Qed.

Lemma serve_distinctPorts (rqs : list request) (f : file) :
  distinctPorts f → distinctPorts (serve rqs f).
Proof.
  revert f. induction rqs as [|rq rqs IH]; intros f Hf; [done|].
  simpl. apply IH. by apply handle_distinctPorts.
Qed.

(** C1. Whatever requests the server has served since the registry was
    empty, and whatever the time is, the pruned list of registrations holds
    at most one entry for any port. *)
Theorem one_active_registration_per_port
    (f0 : file) (rqs : list request) (now p : Z) :
  stored f0 = [] →
  (length (activeFor now p (serve rqs f0)) ≤ 1)%nat.
Proof.
  intros Hempty. apply at_most_one_with_port.
  eapply NoDup_ports_sublist; [apply pruneExpired_sublist|].
  apply serve_distinctPorts. unfold distinctPorts. rewrite Hempty.
  apply NoDup_nil_2.
Qed.

Lemma one_active_registration_per_port_witness :
  stored Missing = []
  ∧ (length (activeFor 50 8080
               (serve
                  [PostRegister (VNum 8080) (VStr "a") (VStr "api")
                     VUndefined 10 10 10;
                   PostRegister (VStr "8080") (VStr "b") (VStr "web")
                     (VNum 5) 20 20 20;
                   PostHeartbeat "8080" (VStr "a") 30 30]
                  Missing)%Z) ≤ 1)%nat.
Proof.
  split; [reflexivity|].
  apply (one_active_registration_per_port Missing). reflexivity.
Defined.

(** ** Scan outages on the two listing routes *)

(** C7. When [netstat] cannot be run, [GET /api/ports/system] answers 500,
    while [GET /api/ports] still answers 200 with the pruned registrations,
    each with an unknown ([null]) OS presence. *)
Theorem scan_unavailable_listing_still_succeeds
    (now : Z) (tasklist : option string) (f : file) :
  status (fst (systemPorts now None tasklist f)) = 500
  ∧ content (fst (systemPorts now None tasklist f)) = Failed NetstatFailed
  ∧ status (fst (listPorts now None tasklist f)) = 200
  ∧ ∃ enriched,
      content (fst (listPorts now None tasklist f))
        = Listing enriched (length enriched)
      ∧ reg <$> enriched = pruneExpired now (stored f)
      ∧ Forall (λ e, osInUse e = None) enriched.
Proof.
  split_and!; try reflexivity.
  { by enter listPorts f. }
  enter listPorts f. simpl.
  eexists. split; [reflexivity|]. split.
  - induction (pruneExpired now (stored f)) as [|r l IH]; [done|].
    simpl. f_equal. exact IH.
  - induction (pruneExpired now (stored f)) as [|r l IH]; simpl;
      by constructor.
Qed.

(** ** Ownership checks *)

Lemma value_eqb_eq (a b : value) : value_eqb a b = true ↔ a = b.
Proof.
  destruct a, b; simpl; try (split; [discriminate|congruence]); try tauto.
  - rewrite Bool.eqb_true_iff. split; congruence.
  - rewrite Z.eqb_eq. split; congruence.
  - rewrite String.eqb_eq. split; congruence.
Qed.

Lemma agentMismatch_true (requested : value) (r : registration) :
  agentMismatch requested r = true
  ↔ truthy requested = true ∧ requested ≠ VStr (agent r).
Proof.
  unfold agentMismatch.
  rewrite andb_true_iff, negb_true_iff, <- not_true_iff_false, value_eqb_eq.
  split; intros [? ?]; split; congruence.
Qed.

(** C8. A heartbeat or a release that names an agent (a truthy [agent]
    in the body) other than the one of the stored registration is answered
    403, and the data file stays as it was. *)
Theorem agent_mismatch_is_forbidden
    (portParam : string) (requested : value) (now stamp : Z) (f : file)
    (i : nat) (r : registration) :
  findPort (parseIntStr portParam) (stored f) = Some (i, r) →
  truthy requested = true →
  requested ≠ VStr (agent r) →
  heartbeat portParam requested now stamp f
    = (reply 403 (Failed AgentMismatch), f)
  ∧ release portParam requested f = (reply 403 (Failed AgentMismatch), f).
Proof.
  intros Hfind Ht Hne.
  assert (agentMismatch requested r = true) as Hmis
    by by apply agentMismatch_true.
  assert (fst (loadData f) = f) as Hf.
  { apply findPort_Some in Hfind as [Hi _].
    eapply loadData_Doc, list_elem_of_lookup_2, Hi. }
  unfold heartbeat, release.
  rewrite (loadData_eq f), Hfind, Hmis, Hf. done.
Qed.

Lemma agent_mismatch_is_forbidden_witness :
  heartbeat "8080" (VStr "b") 2000 2000 (Doc [leaseOfA])
    = (reply 403 (Failed AgentMismatch), Doc [leaseOfA])
  ∧ release "8080" (VStr "b") (Doc [leaseOfA])
    = (reply 403 (Failed AgentMismatch), Doc [leaseOfA]).
Proof.
  apply (agent_mismatch_is_forbidden "8080" (VStr "b") 2000 2000
           (Doc [leaseOfA]) 0%nat leaseOfA).
  - reflexivity.
  - reflexivity.
  - discriminate.
Defined.

(** Without a truthy agent in the body there is no ownership check: the
    empty string counts as no agent at all. *)
Lemma release_without_agent (portParam : string) (f : file)
    (i : nat) (r : registration) (requested : value) :
  findPort (parseIntStr portParam) (stored f) = Some (i, r) →
  truthy requested = false →
  release portParam requested f
    = (reply 200 (Released r), saveData (delete i (stored f))).
Proof.
  intros Hfind Ht. unfold release.
  rewrite (loadData_eq f), Hfind. unfold agentMismatch. by rewrite Ht.
Qed.

(** ** Registering *)

Lemma parseInt_falsy (v : value) (n : Z) :
  truthy v = false → parseInt v = Some n → n = 0.
Proof.
  destruct v as [| |[]|k|s]; simpl; try discriminate.
  - rewrite negb_false_iff, Z.eqb_eq. congruence.
  - rewrite negb_false_iff, String.eqb_eq. by intros ->.
Qed.

Lemma port_guard (v : value) (n : Z) :
  parseInt v = Some n →
  negb (truthy v) || (n <? 1) || (n >? 65535)
  = negb ((1 <=? n) && (n <=? 65535)).
Proof.
  intros Hn. destruct (truthy v) eqn:Ht; simpl.
  - destruct (Z.ltb_spec n 1), (Z.gtb_spec n 65535),
      (Z.leb_spec 1 n), (Z.leb_spec n 65535); simpl; lia.
  - rewrite (parseInt_falsy v n Ht Hn). reflexivity.
Qed.

Lemma text_guard (v : value) :
  negb (truthy v) || negb (isString v)
  || negb (truthy (VStr (trim (strOf v)))) = blank v.
Proof.
  unfold blank. destruct v as [| |[]|k|s]; simpl; try reflexivity.
  - by rewrite orb_true_r.
  - rewrite orb_false_r, !negb_involutive. by destruct s.
Qed.

Lemma findPort_elem (p : Z) (l : list registration) :
  p ∈ Store.port <$> l →
  ∃ i r, findPort (Some p) l = Some (i, r) ∧ r ∈ l ∧ Store.port r = p.
Proof.
  intros Hp. destruct (findPort (Some p) l) as [[i r]|] eqn:Hfind.
  - exists i, r. split; [done|].
    apply findPort_Some in Hfind as [Hi Hr].
    split; [by eapply list_elem_of_lookup_2|congruence].
  - by apply findPort_None in Hfind.
Qed.

Lemma findPort_fresh (p : Z) (l : list registration) :
  p ∉ Store.port <$> l → findPort (Some p) l = None.
Proof.
  intros Hp. destruct (findPort (Some p) l) as [[i r]|] eqn:Hfind; [|done].
  apply findPort_Some in Hfind as [Hi Hr]. destruct Hp.
  apply list_elem_of_fmap. exists r.
  split; [congruence|by eapply list_elem_of_lookup_2].
Qed.

Section Register.
Variables (rport ragent rreason ttlMinutes : value).
Variables (pruneAt now stamp : Z) (f : file).

Let out := register rport ragent rreason ttlMinutes pruneAt now stamp f.
Let pruned := pruneExpired pruneAt (stored f).

Lemma register_rejects :
  portInRange rport = None ∨ blank ragent = true ∨ blank rreason = true →
  status (fst out) = 400 ∧ snd out = f.
Proof.
  subst out. unfold register, portInRange.
  destruct (parseInt rport) as [n|] eqn:Hn; [|done].
  rewrite (port_guard _ _ Hn), (text_guard ragent), (text_guard rreason).
  destruct ((1 <=? n) && (n <=? 65535)); simpl; [|done].
  destruct (blank ragent); [done|]. destruct (blank rreason); [done|].
  intros [?|[?|?]]; done.
Qed.

Lemma register_conflicts (p : Z) :
  portInRange rport = Some p →
  blank ragent = false → blank rreason = false →
  p ∈ Store.port <$> pruned →
  ∃ existing,
    fst out = reply 409 (Failed (AlreadyRegistered existing))
    ∧ existing ∈ pruned ∧ Store.port existing = p
    ∧ stored (snd out) = stored f.
Proof.
  subst out pruned. unfold register, portInRange.
  destruct (parseInt rport) as [n|] eqn:Hn; [|done].
  rewrite (port_guard _ _ Hn), (text_guard ragent), (text_guard rreason).
  destruct ((1 <=? n) && (n <=? 65535)); simpl; [|done].
  intros [= ->] -> -> (i & r & Hfind & Hr & Hp)%findPort_elem.
  rewrite (loadData_eq f), Hfind. simpl.
  exists r. by rewrite stored_after_load.
Qed.

Lemma register_creates (p : Z) :
  portInRange rport = Some p →
  blank ragent = false → blank rreason = false →
  p ∉ Store.port <$> pruned →
  ∃ expiry,
    out = (reply 201
             (Registered (created p ragent rreason expiry now stamp)),
           saveData
             (pruned ++ [created p ragent rreason expiry now stamp]))
    ∧ (truthy ttlMinutes = false → expiry = Some (now + TTL_MS))
    ∧ (truthy ttlMinutes = true →
       expiry = addNum now (mulNum (parseInt ttlMinutes) (60 * 1000))).
Proof.
  subst out pruned. unfold register, portInRange.
  destruct (parseInt rport) as [n|] eqn:Hn; [|done].
  rewrite (port_guard _ _ Hn), (text_guard ragent), (text_guard rreason).
  destruct ((1 <=? n) && (n <=? 65535)); simpl; [|done].
  intros [= ->] -> -> Hfind%findPort_fresh.
  rewrite (loadData_eq f), Hfind. simpl.
  eexists. split; [reflexivity|].
  destruct (truthy ttlMinutes); split; done.
Qed.
End Register.

(** C3, as the code has it. A request whose port is not a number in
    [1, 65535], or whose agent or reason is blank, is answered 400 and
    leaves the file alone. Otherwise, if the pruned list holds the port
    the answer is 409, whoever asks, and nothing is stored; if not, exactly
    one registration is appended to the pruned list, expiring at [now]
    plus the minutes given when [ttlMinutes] is truthy, and at [now] plus
    the 30 minute constant when it is absent or otherwise falsy. *)
Theorem register_outcome
    (rport ragent rreason ttlMinutes : value) (pruneAt now stamp : Z)
    (f : file) :
  let out := register rport ragent rreason ttlMinutes pruneAt now stamp f in
  let pruned := pruneExpired pruneAt (stored f) in
  (portInRange rport = None ∨ blank ragent = true ∨ blank rreason = true →
   status (fst out) = 400 ∧ snd out = f)
  ∧ ∀ p, portInRange rport = Some p →
         blank ragent = false → blank rreason = false →
      (p ∈ Store.port <$> pruned →
       status (fst out) = 409 ∧ stored (snd out) = stored f)
      ∧ (p ∉ Store.port <$> pruned →
         ∃ r, out = (reply 201 (Registered r), saveData (pruned ++ [r]))
              ∧ Store.port r = p
              ∧ (truthy ttlMinutes = false
                 → expiresAt r = Some (now + TTL_MS))
              ∧ (truthy ttlMinutes = true
                 → expiresAt r
                   = addNum now (mulNum (parseInt ttlMinutes) (60 * 1000)))).
Proof.
  intros out pruned. split; [apply register_rejects|].
  intros p Hp Ha Hr. split; intros Hin.
  - destruct (register_conflicts rport ragent rreason ttlMinutes
                pruneAt now stamp f p Hp Ha Hr Hin)
      as (e & Hout & _ & _ & Hst).
    subst out. by rewrite Hout.
  - destruct (register_creates rport ragent rreason ttlMinutes
                pruneAt now stamp f p Hp Ha Hr Hin)
      as (expiry & Hout & Hdef & Hgiven).
    eexists. split; [exact Hout|]. done.
Qed.

Lemma register_outcome_witness :
  status (fst (register (VNum 70000) (VStr "a") (VStr "api") VUndefined
                 1000 1000 1000 (Doc [leaseOfA]))) = 400
  ∧ status (fst (register (VNum 8080) (VStr "b") (VStr "web") VUndefined
                   1000 1000 1000 (Doc [leaseOfA]))) = 409
  ∧ ∃ r, register (VNum 8081) (VStr "b") (VStr "web") (VNum 5)
           1000 1000 1000 (Doc [leaseOfA])
         = (reply 201 (Registered r), saveData ([leaseOfA] ++ [r]))
         ∧ expiresAt r = Some 301000.
Proof.
  destruct (register_outcome (VNum 70000) (VStr "a") (VStr "api") VUndefined
              1000 1000 1000 (Doc [leaseOfA])) as [Hbad _].
  destruct (register_outcome (VNum 8080) (VStr "b") (VStr "web") VUndefined
              1000 1000 1000 (Doc [leaseOfA])) as [_ Hbusy].
  destruct (register_outcome (VNum 8081) (VStr "b") (VStr "web") (VNum 5)
              1000 1000 1000 (Doc [leaseOfA])) as [_ Hvalid].
  split_and!.
  - apply Hbad. left. reflexivity.
  - apply (Hbusy 8080); [reflexivity..|].
    apply (bool_decide_unpack _). vm_compute. exact I.
  - destruct (Hvalid 8081) as [_ Hfree]; [reflexivity..|].
    destruct Hfree as (r & Hout & _ & _ & Hexp).
    + apply (bool_decide_unpack _). vm_compute. exact I.
    + exists r. split; [exact Hout|]. by rewrite Hexp.
Defined.

(** With [ttlMinutes] supplied as 0 the registration does not expire at
    [now + 0]: the specification's wording fails there. *)
Lemma register_ttl_zero_counterexample :
  ∃ r, register (VNum 8080) (VStr "a") (VStr "api") (VNum 0)
         1000 1000 1000 (Doc [])
       = (reply 201 (Registered r), Doc [r])
       ∧ addNum 1000 (ttlAsSpecified (VNum 0)) = Some 1000
       ∧ expiresAt r = Some 1801000
       ∧ expiresAt r ≠ addNum 1000 (ttlAsSpecified (VNum 0)).
Proof.
  eexists. split; [reflexivity|]. split_and!; [reflexivity..|discriminate].
Qed.

(** C10. A valid request for a free port with [ttlMinutes] equal to 0 is
    answered 201, and the registration it stores expires 30 minutes after
    [now]: it is alive at [now] and until then. *)
Theorem register_ttl_zero_gets_default
    (rport ragent rreason : value) (pruneAt now stamp : Z) (f : file)
    (p : Z) :
  portInRange rport = Some p →
  blank ragent = false → blank rreason = false →
  p ∉ Store.port <$> pruneExpired pruneAt (stored f) →
  ∃ r, register rport ragent rreason (VNum 0) pruneAt now stamp f
       = (reply 201 (Registered r),
          saveData (pruneExpired pruneAt (stored f) ++ [r]))
       ∧ expiresAt r = Some (now + 30 * 60 * 1000)
       ∧ ∀ t, t < now + 30 * 60 * 1000 → alive t r = true.
Proof.
  intros Hp Ha Hr Hfree.
  destruct (register_creates rport ragent rreason (VNum 0)
              pruneAt now stamp f p Hp Ha Hr Hfree)
    as (expiry & Hout & Hdef & _).
  specialize (Hdef eq_refl). subst expiry.
  eexists. split; [exact Hout|]. split; [reflexivity|].
  intros t Ht. unfold alive, TTL_MS. simpl.
  destruct (Z.eqb_spec (now + 30 * 60 * 1000) 0) as [->|]; simpl; [done|].
  lia.
Qed.

Lemma register_ttl_zero_gets_default_witness :
  ∃ r, register (VNum 3000) (VStr "my-agent") (VStr "Dev server") (VNum 0)
         5000 5000 5000 Missing
       = (reply 201 (Registered r),
          saveData (pruneExpired 5000 (stored Missing) ++ [r]))
       ∧ expiresAt r = Some (5000 + 30 * 60 * 1000)
       ∧ ∀ t, t < 5000 + 30 * 60 * 1000 → alive t r = true.
Proof.
  apply (register_ttl_zero_gets_default (VNum 3000) (VStr "my-agent")
           (VStr "Dev server") 5000 5000 5000 Missing 3000);
    [reflexivity..|].
  apply (bool_decide_unpack _). vm_compute. exact I.
Defined.

(** ** Suggesting a port *)

Lemma firstFree_Some (g : Z → bool) (n : nat) (p0 p : Z) :
  firstFree g n p0 = Some p
  ↔ p0 ≤ p < p0 + Z.of_nat n ∧ g p = true
    ∧ ∀ q, p0 ≤ q < p → g q = false.
Proof.
  revert p0. induction n as [|n IH]; intros p0; simpl.
  - split; [discriminate|lia].
  - destruct (g p0) eqn:Hg.
    + split.
      * intros [= <-]. split_and!; [lia..|done|lia].
      * intros (Hrange & Hp & Hbelow). f_equal.
        destruct (decide (p0 = p)) as [|Hne]; [done|].
        rewrite Hbelow in Hg by lia. discriminate.
    + rewrite IH. split; intros (Hrange & Hp & Hbelow).
      * split_and!; [lia..|done|]. intros q Hq.
        destruct (decide (q = p0)) as [->|]; [done|]. apply Hbelow. lia.
      * assert (p ≠ p0) by congruence.
        split_and!; [lia..|done|]. intros q Hq. apply Hbelow. lia.
Qed.

Lemma firstFree_None (g : Z → bool) (n : nat) (p0 : Z) :
  firstFree g n p0 = None ↔ ∀ q, p0 ≤ q < p0 + Z.of_nat n → g q = false.
Proof.
  revert p0. induction n as [|n IH]; intros p0; simpl.
  - split; [lia|done].
  - destruct (g p0) eqn:Hg.
    + split; [discriminate|]. intros Hall.
      rewrite Hall in Hg by lia. discriminate.
    + rewrite IH. split; intros Hall q Hq.
      * destruct (decide (q = p0)) as [->|]; [done|]. apply Hall. lia.
      * apply Hall. lia.
Qed.

Lemma free_open (now : Z) (f : file) (output : string) (p : Z) :
  (free (list_to_set (Store.port <$> pruneExpired now (stored f)))
     (getSystemPorts (Some output)) (Some output) p = true)
  ↔ open now f output p.
Proof.
  unfold free, open, isPortInUseByOS, has. simpl.
  rewrite andb_true_iff, negb_true_iff, bool_decide_eq_false.
  rewrite elem_of_list_to_set.
  destruct (parsePorts output !! p) as [b|] eqn:Hb.
  - rewrite bool_decide_eq_true_2 by eauto. simpl.
    split; intros [? ?]; done.
  - rewrite bool_decide_eq_false_2 by (by intros [? ?]). simpl. tauto.
Qed.

Lemma suggest_scan (qmin qmax : value) (now : Z) (netstat : option string)
    (f : file) :
  fst (suggest qmin qmax now netstat f)
  = match firstFree
            (free (list_to_set (Store.port <$> pruneExpired now (stored f)))
               (getSystemPorts netstat) netstat)
            (Z.to_nat ((suggestRange qmin qmax).2
                       - (suggestRange qmin qmax).1 + 1))
            (suggestRange qmin qmax).1 with
    | Some p => reply 200 (Suggested p)
    | None => reply 404 (Failed NoneAvailable)
    end.
Proof.
  unfold suggest. destruct (suggestRange qmin qmax) as [lo hi].
  rewrite (loadData_eq f). simpl. by destruct (firstFree _ _ _).
Qed.

(** The scan between the bounds the handler settles on. *)
Lemma suggest_between (qmin qmax : value) (now : Z) (output : string)
    (f : file) (lo hi : Z) :
  suggestRange qmin qmax = (lo, hi) → lo ≤ hi →
  let out := fst (suggest qmin qmax now (Some output) f) in
  (∀ p, out = reply 200 (Suggested p)
        ↔ lo ≤ p ≤ hi ∧ open now f output p
          ∧ ∀ q, lo ≤ q < p → ¬ open now f output q)
  ∧ (out = reply 404 (Failed NoneAvailable)
     ↔ ∀ q, lo ≤ q ≤ hi → ¬ open now f output q)
  ∧ ((∃ p, out = reply 200 (Suggested p))
     ∨ out = reply 404 (Failed NoneAvailable)).
Proof.
  intros Hrange Hle out. subst out. rewrite suggest_scan, Hrange. simpl.
  set (g := free _ _ _).
  assert (∀ q, g q = false ↔ ¬ open now f output q) as Hclosed.
  { intros q. unfold g. rewrite <- free_open, not_true_iff_false. done. }
  assert (∀ q, g q = true ↔ open now f output q) as Hopen
    by (intros q; apply free_open).
  destruct (firstFree g _ lo) as [p0|] eqn:Hscan.
  - apply firstFree_Some in Hscan as (Hin & Hp0 & Hbelow).
    split_and!.
    + intros p. split.
      * intros [= <-]. split_and!; [lia..|by apply Hopen|].
        intros q Hq. apply Hclosed, Hbelow, Hq.
      * intros (Hp & Hfree & Hmin). f_equal. f_equal.
        destruct (Z.lt_trichotomy p0 p) as [Hlt|[->|Hgt]]; [|done|].
        -- destruct (Hmin p0); [lia|by apply Hopen].
        -- apply Hopen in Hfree. rewrite Hbelow in Hfree by lia.
           discriminate.
    + split; [discriminate|]. intros Hall.
      destruct (Hall p0); [lia|by apply Hopen].
    + left. by exists p0.
  - rewrite firstFree_None in Hscan. split_and!.
    + intros p. split; [discriminate|]. intros (Hp & Hfree & _).
      apply Hopen in Hfree. rewrite Hscan in Hfree by lia. discriminate.
    + split; [|done]. intros _ q Hq. apply Hclosed, Hscan. lia.
    + by right.
Qed.

Lemma suggestRange_given (qmin qmax : value) (min max : Z) :
  parseInt qmin = Some min → min ≠ 0 →
  parseInt qmax = Some max → max ≠ 0 →
  suggestRange qmin qmax = (min, max).
Proof.
  intros Hmin Hmin0 Hmax Hmax0. unfold suggestRange, orElse.
  rewrite Hmin, Hmax.
  destruct (Z.eqb_spec min 0), (Z.eqb_spec max 0); congruence.
Qed.

(** C5, as the code has it. For bounds [min ≤ max] that are both numbers
    other than 0, and with the OS binding map at hand, the suggest route
    returns the smallest port in [min, max] that is neither in the pruned
    list nor in the binding map, and answers 404 exactly when the range
    has no such port. *)
Theorem suggest_lowest_open
    (qmin qmax : value) (min max now : Z) (output : string) (f : file) :
  parseInt qmin = Some min → min ≠ 0 →
  parseInt qmax = Some max → max ≠ 0 →
  min ≤ max →
  let out := fst (suggest qmin qmax now (Some output) f) in
  (∀ p, out = reply 200 (Suggested p)
        ↔ min ≤ p ≤ max ∧ open now f output p
          ∧ ∀ q, min ≤ q < p → ¬ open now f output q)
  ∧ (out = reply 404 (Failed NoneAvailable)
     ↔ ∀ q, min ≤ q ≤ max → ¬ open now f output q)
  ∧ ((∃ p, out = reply 200 (Suggested p))
     ∨ out = reply 404 (Failed NoneAvailable)).
Proof.
  intros Hmin Hmin0 Hmax Hmax0 Hle.
  apply suggest_between; [by apply suggestRange_given|done].
Qed.

Lemma suggest_lowest_open_witness :
  fst (suggest (VStr "5000") (VStr "5002") 2000 (Some "") (Doc [lease5000]))
  = reply 200 (Suggested 5001)
  ↔ 5000 ≤ 5001 ≤ 5002 ∧ open 2000 (Doc [lease5000]) "" 5001
    ∧ ∀ q, 5000 ≤ q < 5001 → ¬ open 2000 (Doc [lease5000]) "" q.
Proof.
  apply (suggest_lowest_open (VStr "5000") (VStr "5002") 5000 5002 2000 ""
           (Doc [lease5000])); [reflexivity|lia|reflexivity|lia|lia].
Defined.

(** The example of the specification: with only 5000 registered,
    [suggest(5000, 5002)] returns 5001. *)
Example suggest_5001 :
  fst (suggest (VStr "5000") (VStr "5002") 2000 (Some "") (Doc [lease5000]))
  = reply 200 (Suggested 5001).
Proof. reflexivity. Qed.

(** With [min] given as 0 the scan starts at 3000: over [0, 10] the answer
    is 404 although nothing is registered or bound, so that port 1, for
    one, is open. *)
Lemma suggest_min_zero_counterexample :
  0 ≤ 10
  ∧ fst (suggest (VStr "0") (VStr "10") 2000 (Some "") (Doc []))
    = reply 404 (Failed NoneAvailable)
  ∧ open 2000 (Doc []) "" 1
  ∧ ¬ (∀ q, 0 ≤ q ≤ 10 → ¬ open 2000 (Doc []) "" q).
Proof.
  assert (open 2000 (Doc []) "" 1) as Hopen.
  { split; [apply not_elem_of_nil|reflexivity]. }
  split_and!; [lia|reflexivity|exact Hopen|].
  intros Hall. apply (Hall 1); [lia|exact Hopen].
Qed.

(** ** Entries the pruner should have removed *)

Example staleLease_registered :
  register (VNum 8080) (VStr "a") (VStr "api") (VNum 1) 0 0 0 (Doc [])
  = (reply 201 (Registered staleLease), Doc [staleLease]).
Proof. reflexivity. Qed.

(** The routes that do prune write the pruned list back. *)
Lemma listPorts_persists_pruned now netstat tasklist f :
  stored (snd (listPorts now netstat tasklist f))
  = pruneExpired now (stored f).
Proof. by enter listPorts f. Qed.

Lemma checkPort_persists_pruned portParam now netstat f :
  status (fst (checkPort portParam now netstat f)) = 200 →
  stored (snd (checkPort portParam now netstat f))
  = pruneExpired now (stored f).
Proof.
  enter checkPort f.
  destruct (parseIntStr portParam); [|discriminate].
  by destruct (_ || _).
Qed.

(** C2. The heartbeat and release routes never call the pruner, and the
    suggest route prunes without saving: two minutes in, each of them
    leaves in the file the lease that expired after one, which the listing
    route removes. *)
Theorem stale_lease_outlives_requests :
  alive 120000 staleLease = false
  ∧ heartbeat "9090" VUndefined 120000 120000 (Doc [staleLease])
    = (reply 404 (Failed NotRegistered), Doc [staleLease])
  ∧ release "9090" VUndefined (Doc [staleLease])
    = (reply 404 (Failed NotRegistered), Doc [staleLease])
  ∧ suggest (VStr "3000") (VStr "3010") 120000 (Some "") (Doc [staleLease])
    = (reply 200 (Suggested 3000), Doc [staleLease])
  ∧ snd (listPorts 120000 (Some "") None (Doc [staleLease])) = Doc [].
Proof. split_and!; reflexivity. Qed.

(** ** Heartbeats *)

(** What the heartbeat route does: it answers 404 exactly when the file
    holds no registration for the port, expired or not. *)
Lemma heartbeat_not_found (portParam : string) (requested : value)
    (now stamp : Z) (f : file) :
  status (fst (heartbeat portParam requested now stamp f)) = 404
  ↔ findPort (parseIntStr portParam) (stored f) = None.
Proof.
  enter heartbeat f.
  destruct (findPort _ _) as [[i r]|]; [|done].
  destruct (agentMismatch requested r); simpl; split; discriminate.
Qed.

(** When it succeeds it replaces the registration it found by its
    [refresh], which differs in [expiresAt] and [lastHeartbeat] only. *)
Lemma heartbeat_refreshes (portParam : string) (requested : value)
    (now stamp : Z) (f : file) (i : nat) (r : registration) :
  findPort (parseIntStr portParam) (stored f) = Some (i, r) →
  agentMismatch requested r = false →
  heartbeat portParam requested now stamp f
  = (reply 200 (Refreshed (now + TTL_MS)),
     saveData (<[i := refresh now stamp r]> (stored f))).
Proof.
  intros Hfind Hok. unfold heartbeat.
  by rewrite (loadData_eq f), Hfind, Hok.
Qed.

(** C4. Two minutes in, port 8080 has no active registration, the
    stored one having expired after one minute; yet the heartbeat is
    answered 200 and brings the expired lease back. *)
Theorem heartbeat_revives_expired_lease :
  pruneExpired 120000 [staleLease] = []
  ∧ heartbeat "8080" VUndefined 120000 120000 (Doc [staleLease])
    = (reply 200 (Refreshed 1920000),
       Doc [refresh 120000 120000 staleLease])
  ∧ pruneExpired 120000 [refresh 120000 120000 staleLease]
    = [refresh 120000 120000 staleLease].
Proof. split_and!; reflexivity. Qed.

(** ** Availability while the scan is out *)

(** C6. With [netstat] unavailable the check route reports an
    unregistered port as available and free to use, and the suggest route
    returns the first unregistered port of the range. *)
Theorem scan_outage_reported_as_free :
  checkPort "8080" 2000 None (Doc [])
  = (reply 200 (Checked 8080 true None None AppearsFree), Doc [])
  ∧ suggest (VStr "8080") (VStr "8090") 2000 None (Doc [])
    = (reply 200 (Suggested 8080), Doc []).
Proof. split; reflexivity. Qed.

(** The same for any port and any file: when the scan is out,
    [available] is decided by the registry alone. *)
Lemma checkPort_scan_outage (portParam : string) (now port : Z) (f : file) :
  parseIntStr portParam = Some port → 1 ≤ port ≤ 65535 →
  port ∉ Store.port <$> pruneExpired now (stored f) →
  fst (checkPort portParam now None f)
  = reply 200 (Checked port true None None AppearsFree).
Proof.
  intros Hport Hrange Hfree%findPort_fresh. unfold checkPort.
  rewrite Hport, (loadData_eq f).
  destruct (Z.ltb_spec port 1), (Z.gtb_spec port 65535); try lia.
  simpl. by rewrite Hfree.
Qed.

(** ** Parsing the output of netstat *)

Lemma has_empty (k : Z) : has (∅ : gmap Z binding) k = false.
Proof.
  unfold has. apply bool_decide_eq_false_2.
  rewrite lookup_empty. by intros [? ?].
Qed.

(** A row adds to the map what it binds alone, unless the port is there
    already. *)
Lemma scanLine_lookup (m : gmap Z binding) (line : string) (p : Z) :
  scanLine m line !! p
  = match m !! p with
    | Some b => Some b
    | None => alone line !! p
    end.
Proof.
  unfold alone, scanLine.
  destruct (matchRow line) as [[[[proto portStr] st] pidStr]|];
    [|rewrite lookup_empty; by destruct (m !! p)].
  destruct (String.eqb proto "TCP" && negb (String.eqb st "LISTENING"));
    [rewrite lookup_empty; by destruct (m !! p)|].
  destruct (parseIntStr portStr) as [port|];
    [|rewrite lookup_empty; by destruct (m !! p)].
  rewrite has_empty.
  destruct ((port >? 0) && (port <=? 65535)); simpl;
    [|rewrite lookup_empty; by destruct (m !! p)].
  unfold has. destruct (decide (port = p)) as [->|Hne].
  - rewrite (lookup_insert_eq ∅). destruct (m !! p) as [b|] eqn:Hm.
    + rewrite bool_decide_eq_true_2 by eauto. simpl. exact Hm.
    + rewrite bool_decide_eq_false_2 by (by intros [? ?]). simpl.
      apply lookup_insert_eq.
  - rewrite (lookup_insert_ne ∅) by done. rewrite lookup_empty.
    destruct (bool_decide _); simpl.
    + by destruct (m !! p).
    + rewrite lookup_insert_ne by done. by destruct (m !! p).
Qed.

Lemma scanLines_lookup (lines : list string) (m : gmap Z binding) (p : Z) :
  fold_left scanLine lines m !! p
  = match m !! p with
    | Some b => Some b
    | None => head (omap (λ line, alone line !! p) lines)
    end.
Proof.
  revert m. induction lines as [|line lines IH]; intros m; simpl.
  - by destruct (m !! p).
  - rewrite IH, scanLine_lookup.
    destruct (m !! p); [done|]. by destruct (alone line !! p).
Qed.

(** What a row can bind alone: one port of [1, 65535], under the protocol
    and pid of the row, a TCP row only in state LISTENING and a UDP row
    under the state label UDP. *)
Lemma alone_lookup (line : string) (p : Z) (b : binding) :
  alone line !! p = Some b →
  ∃ portStr st pidStr,
    matchRow line = Some (proto b, portStr, st, pidStr)
    ∧ parseIntStr portStr = Some p ∧ 1 ≤ p ≤ 65535
    ∧ pid b = parseIntStr pidStr
    ∧ (proto b = "TCP" → st = "LISTENING")
    ∧ state b = (if String.eqb (proto b) "UDP" then "UDP" else st).
Proof.
  unfold alone, scanLine.
  destruct (matchRow line) as [[[[pr portStr] st] pidStr]|];
    [|by rewrite lookup_empty].
  destruct (String.eqb pr "TCP" && negb (String.eqb st "LISTENING"))
    eqn:Hskip; [by rewrite lookup_empty|].
  destruct (parseIntStr portStr) as [port|] eqn:Hport;
    [|by rewrite lookup_empty].
  destruct ((port >? 0) && (port <=? 65535) && _) eqn:Hin;
    [|by rewrite lookup_empty].
  destruct (decide (port = p)) as [->|Hne];
    [|by rewrite lookup_insert_ne, lookup_empty].
  rewrite lookup_insert_eq. intros [= <-]. simpl.
  exists portStr, st, pidStr. split_and!; try done.
  - apply andb_true_iff in Hin as [[H0 _]%andb_true_iff _]. lia.
  - apply andb_true_iff in Hin as [[_ H1]%andb_true_iff _]. lia.
  - intros ->. simpl in Hskip.
    apply negb_false_iff in Hskip. by apply String.eqb_eq.
Qed.

Lemma head_omap_Some {A B} (g : A → option B) (l : list A) (y : B) :
  head (omap g l) = Some y → ∃ x, x ∈ l ∧ g x = Some y.
Proof.
  induction l as [|x l IH]; simpl; [discriminate|].
  destruct (g x) as [y'|] eqn:Hx; simpl.
  - intros [= <-]. exists x. split; [apply list_elem_of_here|done].
  - intros (x' & Hin & Hg)%IH. exists x'.
    split; [by apply list_elem_of_further|done].
Qed.

Lemma head_omap_is_Some {A B} (g : A → option B) (l : list A) (x : A) :
  x ∈ l → is_Some (g x) → is_Some (head (omap g l)).
Proof.
  induction 1 as [x l|x x' l Hin IH]; simpl; intros Hx.
  - destruct Hx as [y ->]. simpl. eauto.
  - destruct (g x'); simpl; eauto.
Qed.

Lemma parsePorts_lookup (output : string) (p : Z) :
  parsePorts output !! p
  = head (omap (λ line, alone line !! p) (splitLines output "")).
Proof. unfold parsePorts. by rewrite scanLines_lookup, lookup_empty. Qed.

Lemma head_omap_first {A B} (g : A → option B) (before after : list A)
    (x : A) (y : B) :
  (∀ x', x' ∈ before → g x' = None) → g x = Some y →
  head (omap g (before ++ x :: after)) = Some y.
Proof.
  intros Hnone Hx. induction before as [|x' before IH]; simpl.
  - by rewrite Hx.
  - rewrite (Hnone x') by apply list_elem_of_here.
    apply IH. intros x'' Hin. by apply Hnone, list_elem_of_further.
Qed.

Lemma alone_udp (line portStr st pidStr : string) (p : Z) :
  matchRow line = Some ("UDP", portStr, st, pidStr) →
  parseIntStr portStr = Some p → 1 ≤ p ≤ 65535 →
  alone line
  = {[ p := {| pid := parseIntStr pidStr; proto := "UDP"; state := "UDP" |} ]}.
Proof.
  intros Hrow Hport Hrange. unfold alone, scanLine.
  rewrite Hrow, Hport, has_empty. simpl.
  destruct (Z.gtb_spec p 0), (Z.leb_spec p 65535); try lia.
  simpl. apply insert_empty.
Qed.

Lemma scanLine_tcp_not_listening (m : gmap Z binding)
    (line portStr st pidStr : string) :
  matchRow line = Some ("TCP", portStr, st, pidStr) →
  st ≠ "LISTENING" → scanLine m line = m.
Proof.
  intros Hrow Hst. unfold scanLine. rewrite Hrow.
  apply String.eqb_neq in Hst. by rewrite Hst.
Qed.

(** C9. Whatever [netstat] printed, in the map parsed from it: every key
    is a port of [1, 65535]; every entry stems from a matching row of the
    output, and one under TCP from a row in state LISTENING; a TCP row in
    another state adds nothing; a matching UDP row with a port in range
    binds it under the state label UDP, and its port is in the map; and a
    port is bound as the first row that binds it says. *)
Theorem netstat_map_shape (output : string) :
  let lines := splitLines output "" in
  let portMap := parsePorts output in
  (∀ p b, portMap !! p = Some b → 1 ≤ p ≤ 65535)
  ∧ (∀ p b, portMap !! p = Some b →
       ∃ line portStr st pidStr,
         line ∈ lines
         ∧ matchRow line = Some (proto b, portStr, st, pidStr)
         ∧ parseIntStr portStr = Some p
         ∧ pid b = parseIntStr pidStr
         ∧ (proto b = "TCP" → st = "LISTENING" ∧ state b = "LISTENING")
         ∧ (proto b = "UDP" → state b = "UDP"))
  ∧ (∀ m line portStr st pidStr,
       matchRow line = Some ("TCP", portStr, st, pidStr) →
       st ≠ "LISTENING" → scanLine m line = m)
  ∧ (∀ line portStr st pidStr p,
       line ∈ lines →
       matchRow line = Some ("UDP", portStr, st, pidStr) →
       parseIntStr portStr = Some p → 1 ≤ p ≤ 65535 →
       alone line
       = {[ p := {| pid := parseIntStr pidStr;
                    proto := "UDP"; state := "UDP" |} ]}
       ∧ is_Some (portMap !! p))
  ∧ (∀ before line after p b,
       lines = before ++ line :: after →
       (∀ earlier, earlier ∈ before → alone earlier !! p = None) →
       alone line !! p = Some b →
       portMap !! p = Some b).
Proof.
  intros lines portMap. subst lines portMap. split_and!.
  - intros p b. rewrite parsePorts_lookup.
    intros (line & _ & Hb)%head_omap_Some.
    apply alone_lookup in Hb as (? & ? & ? & _ & _ & Hrange & _). exact Hrange.
  - intros p b. rewrite parsePorts_lookup.
    intros (line & Hin & Hb)%head_omap_Some.
    apply alone_lookup in Hb
      as (portStr & st & pidStr & Hrow & Hport & _ & Hpid & Htcp & Hst).
    exists line, portStr, st, pidStr. split_and!; try done.
    + intros Hpr. split; [by apply Htcp|].
      rewrite Hst, Hpr. simpl. by apply Htcp.
    + intros Hpr. by rewrite Hst, Hpr.
  - intros m line portStr st pidStr. apply scanLine_tcp_not_listening.
  - intros line portStr st pidStr p Hin Hrow Hport Hrange.
    pose proof (alone_udp line portStr st pidStr p Hrow Hport Hrange) as Hal.
    split; [exact Hal|]. rewrite parsePorts_lookup.
    apply (head_omap_is_Some _ _ line Hin).
    rewrite Hal, lookup_singleton_eq. eauto.
  - intros before line after p b Hlines Hnone Hb.
    rewrite parsePorts_lookup, Hlines. by apply head_omap_first.
Qed.

(** A row with four columns only, as [netstat] prints UDP sockets, is not
    a match of either pattern. *)
Example four_column_row_skipped :
  matchRow "  UDP    0.0.0.0:5353      *:*              2222" = None.
Proof. reflexivity. Qed.

Example netstatSample_parsed :
  map_to_list (parsePorts netstatSample)
  = [(135, {| pid := Some 1044; proto := "TCP"; state := "LISTENING" |});
     (5355, {| pid := Some 2223; proto := "UDP"; state := "UDP" |})].
Proof. vm_compute. reflexivity. Qed.

Lemma netstat_map_shape_witness :
  parsePorts netstatSample !! 135
  = Some {| pid := Some 1044; proto := "TCP"; state := "LISTENING" |}.
Proof.
  destruct (netstat_map_shape netstatSample) as (_ & _ & _ & _ & Hfirst).
  apply (Hfirst []
           "  TCP    0.0.0.0:135       0.0.0.0:0        LISTENING       1044"
           (tail (splitLines netstatSample ""))).
  - vm_compute. reflexivity.
  - intros earlier Hin. by apply elem_of_nil in Hin.
  - vm_compute. reflexivity.
Defined.

(** * Further properties of the handlers *)

(** ** Pruning over time *)

Lemma alive_earlier (now later : Z) (r : registration) :
  now ≤ later → alive later r = true → alive now r = true.
Proof.
  unfold alive. intros Hle.
  destruct (truthyNum (expiresAt r)); simpl; [|done].
  destruct (expiresAt r) as [e|]; [|done]. lia.
Qed.

Lemma pruneExpired_app (t : Z) (l k : list registration) :
  pruneExpired t (l ++ k) = pruneExpired t l ++ pruneExpired t k.
Proof. apply filter_app. Qed.

(** X1. Pruning at one time and then at a later one leaves what pruning
    at the later time alone leaves; in particular pruning twice at the
    same time changes nothing more. *)
Theorem pruneExpired_then_later (now later : Z) (l : list registration) :
  now ≤ later →
  pruneExpired later (pruneExpired now l) = pruneExpired later l.
Proof.
  intros Hle. unfold pruneExpired. rewrite list_filter_filter.
  apply list_filter_iff. intros r. split; [tauto|].
  intros Hr. split; [done|].
  apply Is_true_true. apply Is_true_true in Hr.
  by apply (alive_earlier now later).
Qed.

Lemma pruneExpired_then_later_witness :
  pruneExpired 120000 (pruneExpired 1000 [staleLease; leaseOfA])
  = pruneExpired 120000 [staleLease; leaseOfA].
Proof. apply pruneExpired_then_later. lia. Defined.

(** The ports held at a later time are among those held earlier. *)
Lemma ports_pruned_later (now later p : Z) (l : list registration) :
  now ≤ later →
  p ∈ Store.port <$> pruneExpired later l →
  p ∈ Store.port <$> pruneExpired now l.
Proof.
  intros Hle (r & -> & Hr)%list_elem_of_fmap.
  apply list_elem_of_fmap_2.
  apply elem_of_pruneExpired in Hr as [Ha Hr].
  apply elem_of_pruneExpired. split; [|done].
  by apply (alive_earlier now later).
Qed.

(** ** Leases with an odd TTL *)

(** X2. A valid request for a free port whose [ttlMinutes] is truthy but
    not a number ([parseInt] gives [NaN]) is answered 201, and the
    registration it stores has no expiry: no later pruning removes it. *)
Theorem register_unreadable_ttl_never_expires
    (rport ragent rreason ttlMinutes : value) (pruneAt now stamp : Z)
    (f : file) (p : Z) :
  portInRange rport = Some p →
  blank ragent = false → blank rreason = false →
  p ∉ Store.port <$> pruneExpired pruneAt (stored f) →
  truthy ttlMinutes = true → parseInt ttlMinutes = None →
  ∃ r, register rport ragent rreason ttlMinutes pruneAt now stamp f
       = (reply 201 (Registered r),
          saveData (pruneExpired pruneAt (stored f) ++ [r]))
       ∧ expiresAt r = None
       ∧ ∀ t, r ∈ pruneExpired t
                    (stored (snd (register rport ragent rreason ttlMinutes
                                    pruneAt now stamp f))).
Proof.
  intros Hp Ha Hr Hfree Ht Hnan.
  destruct (register_creates rport ragent rreason ttlMinutes
              pruneAt now stamp f p Hp Ha Hr Hfree)
    as (expiry & Hout & _ & Hgiven).
  specialize (Hgiven Ht). rewrite Hnan in Hgiven. simpl in Hgiven.
  subst expiry. eexists. split; [exact Hout|]. split; [reflexivity|].
  intros t. rewrite Hout. simpl. rewrite stored_saveData.
  apply elem_of_pruneExpired. split; [reflexivity|].
  apply elem_of_app. right. apply list_elem_of_here.
Qed.

Lemma register_unreadable_ttl_never_expires_witness :
  ∃ r, register (VNum 3000) (VStr "a") (VStr "api") (VStr "soon")
         1000 1000 1000 (Doc [])
       = (reply 201 (Registered r),
          saveData (pruneExpired 1000 (stored (Doc [])) ++ [r]))
       ∧ expiresAt r = None
       ∧ ∀ t, r ∈ pruneExpired t
                    (stored (snd (register (VNum 3000) (VStr "a")
                                    (VStr "api") (VStr "soon")
                                    1000 1000 1000 (Doc [])))).
Proof.
  apply (register_unreadable_ttl_never_expires (VNum 3000) (VStr "a")
           (VStr "api") (VStr "soon") 1000 1000 1000 (Doc []) 3000);
    try reflexivity.
  apply (bool_decide_unpack _). vm_compute. exact I.
Defined.

(** X3. A valid request for a free port with a negative number of minutes
    is answered 201 all the same, but what it stores is expired from the
    start: no pruning at [now] or later keeps it (the one exception is an
    expiry of exactly 0, which counts as no expiry). *)
Theorem register_negative_ttl_is_dead_on_arrival
    (rport ragent rreason : value) (minutes pruneAt now stamp : Z)
    (f : file) (p : Z) :
  portInRange rport = Some p →
  blank ragent = false → blank rreason = false →
  p ∉ Store.port <$> pruneExpired pruneAt (stored f) →
  minutes < 0 → now + minutes * (60 * 1000) ≠ 0 →
  ∃ r, register rport ragent rreason (VNum minutes) pruneAt now stamp f
       = (reply 201 (Registered r),
          saveData (pruneExpired pruneAt (stored f) ++ [r]))
       ∧ ∀ t l, now ≤ t → r ∉ pruneExpired t l.
Proof.
  intros Hp Ha Hr Hfree Hneg Hnz.
  destruct (register_creates rport ragent rreason (VNum minutes)
              pruneAt now stamp f p Hp Ha Hr Hfree)
    as (expiry & Hout & _ & Hgiven).
  assert (truthy (VNum minutes) = true) as Ht.
  { simpl. apply negb_true_iff, Z.eqb_neq. lia. }
  specialize (Hgiven Ht). simpl in Hgiven. subst expiry.
  eexists. split; [exact Hout|].
  intros t l Hle [Halive _]%elem_of_pruneExpired.
  rewrite (alive_false t _ (now + minutes * (60 * 1000))) in Halive;
    [discriminate|reflexivity|done|lia].
Qed.

Lemma register_negative_ttl_is_dead_on_arrival_witness :
  ∃ r, register (VNum 3000) (VStr "a") (VStr "api") (VNum (-5))
         1000 1000 1000 (Doc [])
       = (reply 201 (Registered r),
          saveData (pruneExpired 1000 (stored (Doc [])) ++ [r]))
       ∧ ∀ t l, 1000 ≤ t → r ∉ pruneExpired t l.
Proof.
  apply (register_negative_ttl_is_dead_on_arrival (VNum 3000) (VStr "a")
           (VStr "api") (-5) 1000 1000 1000 (Doc []) 3000);
    try reflexivity; try lia.
  apply (bool_decide_unpack _). vm_compute. exact I.
Defined.

(** X4. A port whose stored registrations have all expired by the time of
    the request can be registered again, by anyone: the answer is 201, the
    expired entries are dropped from the file, and the new registration is
    the only one stored for the port. *)
Theorem register_takes_over_expired_port
    (rport ragent rreason ttlMinutes : value) (pruneAt now stamp : Z)
    (f : file) (p : Z) :
  portInRange rport = Some p →
  blank ragent = false → blank rreason = false →
  (∀ old, old ∈ stored f → Store.port old = p → alive pruneAt old = false) →
  ∃ r, register rport ragent rreason ttlMinutes pruneAt now stamp f
       = (reply 201 (Registered r),
          saveData (pruneExpired pruneAt (stored f) ++ [r]))
       ∧ filter (λ r', Store.port r' = p)
           (stored (snd (register rport ragent rreason ttlMinutes
                           pruneAt now stamp f))) = [r].
Proof.
  intros Hp Ha Hr Hold.
  assert (p ∉ Store.port <$> pruneExpired pruneAt (stored f)) as Hfree.
  { intros (old & -> & Hin)%list_elem_of_fmap.
    apply elem_of_pruneExpired in Hin as [Halive Hin].
    rewrite (Hold old Hin eq_refl) in Halive. discriminate. }
  destruct (register_creates rport ragent rreason ttlMinutes
              pruneAt now stamp f p Hp Ha Hr Hfree)
    as (expiry & Hout & _ & _).
  eexists. split; [exact Hout|].
  rewrite Hout. simpl. rewrite stored_saveData, filter_app.
  rewrite none_with_port by done. simpl.
  by rewrite filter_cons_True, filter_nil.
Qed.

Lemma register_takes_over_expired_port_witness :
  ∃ r, register (VNum 8080) (VStr "b") (VStr "web") VUndefined
         120000 120000 120000 (Doc [staleLease])
       = (reply 201 (Registered r),
          saveData (pruneExpired 120000 (stored (Doc [staleLease])) ++ [r]))
       ∧ filter (λ r', Store.port r' = 8080)
           (stored (snd (register (VNum 8080) (VStr "b") (VStr "web")
                           VUndefined 120000 120000 120000
                           (Doc [staleLease])))) = [r].
Proof.
  apply (register_takes_over_expired_port (VNum 8080) (VStr "b")
           (VStr "web") VUndefined 120000 120000 120000
           (Doc [staleLease]) 8080); try reflexivity.
  intros old Hin _. apply list_elem_of_singleton in Hin. subst old.
  reflexivity.
Defined.

(** ** Requests in sequence *)

(** The first registration for a port, and what comes before it. *)
Lemma findPort_first (p : Z) (l1 l2 : list registration) (x : registration) :
  p ∉ Store.port <$> l1 → Store.port x = p →
  findPort (Some p) (l1 ++ x :: l2) = Some (length l1, x).
Proof.
  intros Hl1 Hx. unfold findPort.
  induction l1 as [|y l1 IH]; simpl.
  - rewrite decide_True by congruence. done.
  - rewrite fmap_cons, not_elem_of_cons in Hl1. destruct Hl1 as [Hy Hl1].
    rewrite decide_False by congruence. by rewrite (IH Hl1).
Qed.

Lemma findPort_split (p : Js.num) (l : list registration) (i : nat)
    (r : registration) :
  findPort p l = Some (i, r) →
  ∃ l1 l2, l = l1 ++ r :: l2 ∧ length l1 = i
           ∧ (∀ y, y ∈ l1 → Some (Store.port y) ≠ p)
           ∧ Some (Store.port r) = p.
Proof.
  unfold findPort. revert i. induction l as [|y l IH]; intros i; simpl.
  - discriminate.
  - destruct (decide (Some (Store.port y) = p)) as [Hy|Hy].
    + intros [= <- <-]. exists [], l. split_and!; try done.
      intros y' Hin. by apply elem_of_nil in Hin.
    + destruct (list_find _ l) as [[j x]|] eqn:Hfind; simpl; [|discriminate].
      intros [= <- <-].
      destruct (IH j eq_refl) as (l1 & l2 & -> & <- & Hbefore & Hr).
      exists (y :: l1), l2. split_and!; try done.
      intros y' [->|Hin]%elem_of_cons; [done|by apply Hbefore].
Qed.

(** Among the registrations still alive, the first one for a port is the
    first one stored for it, when that one is alive. *)
Lemma findPort_pruned (t p : Z) (l1 l2 : list registration)
    (x : registration) :
  p ∉ Store.port <$> l1 → Store.port x = p → alive t x = true →
  findPort (Some p) (pruneExpired t (l1 ++ x :: l2))
  = Some (length (pruneExpired t l1), x).
Proof.
  intros Hl1 Hx Halive. rewrite pruneExpired_app.
  replace (pruneExpired t (x :: l2)) with (x :: pruneExpired t l2).
  - apply findPort_first; [|done].
    intros (y & -> & Hy)%list_elem_of_fmap. apply Hl1.
    apply list_elem_of_fmap_2.
    by apply elem_of_pruneExpired in Hy as [_ Hy].
  - unfold pruneExpired. rewrite filter_cons_True; [done|].
    by apply Is_true_true.
Qed.

(** What an answer 201 tells of the request and of the file. *)
Lemma register_created_inv
    (rport ragent rreason ttlMinutes : value) (pruneAt now stamp : Z)
    (f f' : file) (r : registration) :
  register rport ragent rreason ttlMinutes pruneAt now stamp f
  = (reply 201 (Registered r), f') →
  f' = saveData (pruneExpired pruneAt (stored f) ++ [r])
  ∧ (Store.port r ∉ Store.port <$> pruneExpired pruneAt (stored f))
  ∧ 1 ≤ Store.port r ≤ 65535
  ∧ agent r = trim (strOf ragent) ∧ agent r ≠ ""
  ∧ reason r = trim (strOf rreason) ∧ reason r ≠ "".
Proof.
  unfold register. rewrite (loadData_eq f).
  destruct (parseInt rport) as [n|] eqn:Hn; [|discriminate].
  rewrite (port_guard _ _ Hn), (text_guard ragent), (text_guard rreason).
  destruct ((1 <=? n) && (n <=? 65535)) eqn:Hrange; simpl; [|discriminate].
  destruct (blank ragent) eqn:Ha; [discriminate|].
  destruct (blank rreason) eqn:Hr; [discriminate|].
  destruct (findPort _ _) as [[i e]|] eqn:Hfind; [discriminate|].
  intros [= <- <-]. simpl. split_and!; try done.
  - by apply findPort_None.
  - lia.
  - lia.
  - unfold blank in Ha. apply orb_false_iff in Ha as [_ Ha].
    by apply String.eqb_neq.
  - unfold blank in Hr. apply orb_false_iff in Hr as [_ Hr].
    by apply String.eqb_neq.
Qed.

(** X5. Once a port has been registered, the check route reports it as
    not available, with the registration just made and the advice that
    names its agent, for as long as the registration is alive; the file is
    left with the pruned list. *)
Theorem registered_port_is_reported_taken
    (rport ragent rreason ttlMinutes : value) (pruneAt now stamp : Z)
    (f f' : file) (r : registration)
    (portParam : string) (t : Z) (netstat : option string) :
  register rport ragent rreason ttlMinutes pruneAt now stamp f
  = (reply 201 (Registered r), f') →
  parseIntStr portParam = Some (Store.port r) →
  alive t r = true →
  checkPort portParam t netstat f'
  = (reply 200
       (Checked (Store.port r) false (Some r)
          (isPortInUseByOS (Store.port r) None netstat)
          (RegisteredBy (agent r) (reason r))),
     saveData (pruneExpired t (pruneExpired pruneAt (stored f) ++ [r]))).
Proof.
  intros (-> & Hfresh & Hrange & _)%register_created_inv Hparam Halive.
  unfold checkPort. rewrite Hparam.
  destruct (Z.ltb_spec (Store.port r) 1), (Z.gtb_spec (Store.port r) 65535);
    try lia.
  simpl. by rewrite (findPort_pruned t _ _ [] r Hfresh eq_refl Halive).
Qed.

Lemma registered_port_is_reported_taken_witness :
  checkPort "8080" 30000 None (Doc [staleLease])
  = (reply 200
       (Checked 8080 false (Some staleLease) None (RegisteredBy "a" "api")),
     Doc [staleLease]).
Proof.
  apply (registered_port_is_reported_taken (VNum 8080) (VStr "a")
           (VStr "api") (VNum 1) 0 0 0 (Doc []) (Doc [staleLease])
           staleLease "8080" 30000 None); reflexivity.
Defined.

(** X6. Releasing a port right after registering it, with the agent of
    the registration or with none, gives the registration back and leaves
    in the file exactly the pruned list the registration was added to. *)
Theorem release_undoes_register
    (rport ragent rreason ttlMinutes : value) (pruneAt now stamp : Z)
    (f f' : file) (r : registration)
    (portParam : string) (requested : value) :
  register rport ragent rreason ttlMinutes pruneAt now stamp f
  = (reply 201 (Registered r), f') →
  parseIntStr portParam = Some (Store.port r) →
  agentMismatch requested r = false →
  release portParam requested f'
  = (reply 200 (Released r), saveData (pruneExpired pruneAt (stored f))).
Proof.
  intros (-> & Hfresh & _)%register_created_inv Hparam Hok.
  unfold release. rewrite Hparam. simpl.
  rewrite (findPort_first _ _ [] r Hfresh eq_refl), Hok.
  by rewrite delete_middle, app_nil_r.
Qed.

Lemma release_undoes_register_witness :
  release "8080" (VStr "a") (Doc [staleLease])
  = (reply 200 (Released staleLease),
     saveData (pruneExpired 0 (stored (Doc [])))).
Proof.
  apply (release_undoes_register (VNum 8080) (VStr "a") (VStr "api")
           (VNum 1) 0 0 0 (Doc []) (Doc [staleLease]) staleLease
           "8080" (VStr "a")); reflexivity.
Defined.

Lemma release_released_inv (portParam : string) (requested : value)
    (f f' : file) (r : registration) :
  release portParam requested f = (reply 200 (Released r), f') →
  ∃ i, findPort (parseIntStr portParam) (stored f) = Some (i, r)
       ∧ f' = saveData (delete i (stored f)).
Proof.
  unfold release. rewrite (loadData_eq f).
  destruct (findPort _ _) as [[i x]|]; [|discriminate].
  destruct (agentMismatch requested x); [discriminate|].
  intros [= <- <-]. by exists i.
Qed.

Lemma filter_other_ports (l : list registration) (p : Z) :
  p ∉ Store.port <$> l → filter (λ r, Store.port r ≠ p) l = l.
Proof.
  induction l as [|y l IH]; [done|].
  rewrite fmap_cons, not_elem_of_cons. intros [Hy Hl].
  rewrite filter_cons_True by congruence. by rewrite IH.
Qed.

(** X7. In a file where no two registrations share a port, as every file
    the server has written since the registry was empty is, a successful
    release leaves no registration for the port and keeps every other
    one, in the order they had. *)
Theorem release_frees_the_port (portParam : string) (requested : value)
    (f f' : file) (r : registration) :
  distinctPorts f →
  release portParam requested f = (reply 200 (Released r), f') →
  parseIntStr portParam = Some (Store.port r)
  ∧ r ∈ stored f
  ∧ stored f' = filter (λ r', Store.port r' ≠ Store.port r) (stored f).
Proof.
  unfold distinctPorts.
  intros Hnodup (i & Hfind & ->)%release_released_inv.
  apply findPort_split in Hfind as (l1 & l2 & Hl & <- & _ & Hport).
  rewrite Hl in *. split_and!; [done| |].
  - apply elem_of_app. right. apply list_elem_of_here.
  - rewrite stored_saveData, delete_middle.
    rewrite fmap_app, fmap_cons in Hnodup.
    apply NoDup_app in Hnodup as (_ & Hl1 & [Hr _]%NoDup_cons).
    rewrite filter_app, filter_cons_False by (intros Hne; by apply Hne).
    rewrite !filter_other_ports; [done|done|].
    intros Hin. apply (Hl1 _ Hin). apply list_elem_of_here.
Qed.

Lemma release_frees_the_port_witness :
  parseIntStr "8080" = Some (Store.port leaseOfA)
  ∧ leaseOfA ∈ stored (Doc [lease5000; leaseOfA])
  ∧ stored (Doc [lease5000])
    = filter (λ r', Store.port r' ≠ Store.port leaseOfA)
        (stored (Doc [lease5000; leaseOfA])).
Proof.
  apply (release_frees_the_port "8080" VUndefined
           (Doc [lease5000; leaseOfA]) (Doc [lease5000]) leaseOfA).
  - apply (bool_decide_unpack _). vm_compute. exact I.
  - reflexivity.
Defined.

(** X8. After a successful heartbeat at [now], the check route reports
    the port as taken at every time before [now] plus 30 minutes, with the
    registration as the heartbeat left it. *)
Theorem heartbeat_keeps_port_taken
    (portParam : string) (requested : value) (now stamp expiry : Z)
    (f f' : file) (p t : Z) (netstat : option string) :
  heartbeat portParam requested now stamp f
  = (reply 200 (Refreshed expiry), f') →
  parseIntStr portParam = Some p → 1 ≤ p ≤ 65535 →
  t < now + TTL_MS →
  expiry = now + TTL_MS
  ∧ ∃ r, fst (checkPort portParam t netstat f')
         = reply 200
             (Checked p false (Some r) (isPortInUseByOS p None netstat)
                (RegisteredBy (agent r) (reason r)))
         ∧ Store.port r = p
         ∧ expiresAt r = Some (now + TTL_MS)
         ∧ lastHeartbeat r = Some stamp.
Proof.
  unfold heartbeat. rewrite (loadData_eq f).
  destruct (findPort _ _) as [[i x]|] eqn:Hfind; [|discriminate].
  destruct (agentMismatch requested x); [discriminate|].
  intros [= <- <-] Hparam Hrange Ht. split; [done|].
  rewrite Hparam in Hfind.
  apply findPort_split in Hfind as (l1 & l2 & Hl & <- & Hbefore & [= Hport]).
  exists (refresh now stamp x). rewrite Hl.
  rewrite insert_app_r_alt, Nat.sub_diag by done. simpl.
  unfold checkPort. rewrite Hparam.
  destruct (Z.ltb_spec p 1), (Z.gtb_spec p 65535); try lia.
  simpl. rewrite (findPort_pruned t p l1 l2 (refresh now stamp x)).
  - done.
  - intros (y & Hy & Hin)%list_elem_of_fmap. apply (Hbefore y Hin).
    congruence.
  - done.
  - unfold alive. simpl. unfold TTL_MS in *.
    destruct (Z.eqb_spec (now + 30 * 60 * 1000) 0); simpl; [done|lia].
Qed.

Lemma heartbeat_keeps_port_taken_witness :
  1920000 = 120000 + TTL_MS
  ∧ ∃ r, fst (checkPort "8080" 130000 None
                (Doc [refresh 120000 120000 staleLease]))
         = reply 200
             (Checked 8080 false (Some r) (isPortInUseByOS 8080 None None)
                (RegisteredBy (agent r) (reason r)))
         ∧ Store.port r = 8080
         ∧ expiresAt r = Some (120000 + TTL_MS)
         ∧ lastHeartbeat r = Some 120000.
Proof.
  apply (heartbeat_keeps_port_taken "8080" VUndefined 120000 120000 1920000
           (Doc [staleLease]) (Doc [refresh 120000 120000 staleLease])
           8080 130000 None); [reflexivity|reflexivity|lia|].
  unfold TTL_MS. lia.
Defined.

(** X9. The heartbeat and release routes do not validate the port of the
    path: one that is not a number is answered 404, like a port nobody
    holds, and the registrations stay as they were. *)
Theorem unreadable_port_is_not_found
    (portParam : string) (requested : value) (now stamp : Z) (f : file) :
  parseIntStr portParam = None →
  fst (heartbeat portParam requested now stamp f)
  = reply 404 (Failed NotRegistered)
  ∧ stored (snd (heartbeat portParam requested now stamp f)) = stored f
  ∧ fst (release portParam requested f) = reply 404 (Failed NotRegistered)
  ∧ stored (snd (release portParam requested f)) = stored f.
Proof.
  intros Hnan.
  assert (findPort None (stored f) = None) as Hfind.
  { unfold findPort. apply list_find_None, Forall_forall. done. }
  unfold heartbeat, release.
  rewrite (loadData_eq f), Hnan, Hfind. simpl.
  by rewrite stored_after_load.
Qed.

Lemma unreadable_port_is_not_found_witness :
  fst (heartbeat "web" VUndefined 2000 2000 (Doc [leaseOfA]))
  = reply 404 (Failed NotRegistered)
  ∧ stored (snd (heartbeat "web" VUndefined 2000 2000 (Doc [leaseOfA])))
    = stored (Doc [leaseOfA])
  ∧ fst (release "web" VUndefined (Doc [leaseOfA]))
    = reply 404 (Failed NotRegistered)
  ∧ stored (snd (release "web" VUndefined (Doc [leaseOfA])))
    = stored (Doc [leaseOfA]).
Proof.
  apply (unreadable_port_is_not_found "web" VUndefined 2000 2000
           (Doc [leaseOfA])).
  reflexivity.
Defined.

Lemma suggest_file (qmin qmax : value) (now : Z) (netstat : option string)
    (f : file) :
  snd (suggest qmin qmax now netstat f) = fst (loadData f).
Proof.
  unfold suggest. destruct (suggestRange qmin qmax) as [lo hi].
  rewrite (loadData_eq f). simpl. by destruct (firstFree _ _ _).
Qed.

(** A port the suggest route returns is held by no registration alive at
    that time, whether [netstat] could be run or not. *)
Lemma suggested_not_registered (qmin qmax : value) (now : Z)
    (netstat : option string) (f : file) (p : Z) :
  fst (suggest qmin qmax now netstat f) = reply 200 (Suggested p) →
  p ∉ Store.port <$> pruneExpired now (stored f).
Proof.
  rewrite suggest_scan.
  destruct (firstFree _ _ _) as [p0|] eqn:Hscan; [|discriminate].
  intros [= <-]. apply firstFree_Some in Hscan as (_ & Hfree & _).
  unfold free in Hfree. apply andb_true_iff in Hfree as [Hreg _].
  apply negb_true_iff, bool_decide_eq_false in Hreg.
  by rewrite elem_of_list_to_set in Hreg.
Qed.

(** X10. A port the suggest route returns can be registered: when it is
    a port of [1, 65535], a request for it with an agent and a reason,
    made at the same time or later, is answered 201. *)
Theorem suggested_port_can_be_registered
    (qmin qmax : value) (now : Z) (netstat : option string) (f : file)
    (p : Z) (ragent rreason ttlMinutes : value) (pruneAt rnow stamp : Z) :
  fst (suggest qmin qmax now netstat f) = reply 200 (Suggested p) →
  1 ≤ p ≤ 65535 →
  blank ragent = false → blank rreason = false →
  now ≤ pruneAt →
  ∃ r, fst (register (VNum p) ragent rreason ttlMinutes pruneAt rnow stamp
              (snd (suggest qmin qmax now netstat f)))
       = reply 201 (Registered r)
       ∧ Store.port r = p.
Proof.
  intros Hfree%suggested_not_registered Hrange Ha Hr Hle.
  rewrite suggest_file.
  destruct (register_creates (VNum p) ragent rreason ttlMinutes
              pruneAt rnow stamp (fst (loadData f)) p)
    as (expiry & Hout & _); try done.
  - unfold portInRange. simpl.
    destruct (Z.leb_spec 1 p), (Z.leb_spec p 65535); try lia. done.
  - rewrite stored_after_load. intros Hin. apply Hfree.
    by apply (ports_pruned_later now pruneAt).
  - eexists. rewrite Hout. done.
Qed.

Lemma suggested_port_can_be_registered_witness :
  ∃ r, fst (register (VNum 5001) (VStr "b") (VStr "web") VUndefined
              3000 3000 3000
              (snd (suggest (VStr "5000") (VStr "5002") 2000 (Some "")
                      (Doc [lease5000]))))
       = reply 201 (Registered r)
       ∧ Store.port r = 5001.
Proof.
  apply (suggested_port_can_be_registered (VStr "5000") (VStr "5002") 2000
           (Some "") (Doc [lease5000]) 5001 (VStr "b") (VStr "web")
           VUndefined 3000 3000 3000); try reflexivity; lia.
Defined.

(** ** What the check and listing routes report *)

(** X11. For a port of [1, 65535] the check route answers 200, and it
    says available exactly when no registration alive at that time holds
    the port and [netstat], if it could be run, did not show the port
    bound.  The owner it names is a registration alive for that port, or
    none when there is none, and the OS presence is unknown exactly when
    [netstat] could not be run. *)
Theorem check_available_iff
    (portParam : string) (now : Z) (netstat : option string) (f : file)
    (p : Z) :
  parseIntStr portParam = Some p → 1 ≤ p ≤ 65535 →
  ∃ available registeredBy os advice,
    fst (checkPort portParam now netstat f)
    = reply 200 (Checked p available registeredBy os advice)
    ∧ (available = true
       ↔ (p ∉ Store.port <$> pruneExpired now (stored f))
         ∧ ∀ output, netstat = Some output → parsePorts output !! p = None)
    ∧ (registeredBy = None ↔ p ∉ Store.port <$> pruneExpired now (stored f))
    ∧ (∀ r, registeredBy = Some r →
         r ∈ pruneExpired now (stored f) ∧ Store.port r = p
         ∧ advice = RegisteredBy (agent r) (reason r))
    ∧ (os = None ↔ netstat = None).
Proof.
  intros Hparam Hrange. unfold checkPort.
  rewrite Hparam, (loadData_eq f).
  destruct (Z.ltb_spec p 1), (Z.gtb_spec p 65535); try lia.
  simpl. do 4 eexists. split; [reflexivity|].
  destruct (findPort (Some p) (pruneExpired now (stored f)))
    as [[i r]|] eqn:Hfind; simpl.
  - assert (p ∈ Store.port <$> pruneExpired now (stored f)) as Hin.
    { apply findPort_Some in Hfind as [Hi [= <-]].
      apply list_elem_of_fmap_2. by eapply list_elem_of_lookup_2. }
    split_and!.
    + split; [discriminate|]. by intros [? _].
    + split; [discriminate|done].
    + intros r' [= <-]. apply findPort_Some in Hfind as [Hi [= <-]].
      split_and!; [by eapply list_elem_of_lookup_2|done..].
    + unfold isPortInUseByOS, getSystemPorts.
      destruct netstat; split; discriminate || done.
  - apply findPort_None in Hfind. split_and!.
    + unfold isPortInUseByOS, getSystemPorts, has.
      destruct netstat as [output|]; simpl.
      * destruct (parsePorts output !! p) as [b|] eqn:Hb.
        -- rewrite bool_decide_eq_true_2 by eauto. simpl.
           split; [discriminate|]. intros [_ Hnone].
           specialize (Hnone output eq_refl). congruence.
        -- rewrite bool_decide_eq_false_2 by (by intros [? ?]). simpl.
           split; [|done]. intros _. split; [done|]. by intros ? [= <-].
      * split; [|done]. intros _. split; [done|]. discriminate.
    + done.
    + discriminate.
    + unfold isPortInUseByOS, getSystemPorts.
      destruct netstat; split; discriminate || done.
Qed.

Lemma check_available_iff_witness :
  ∃ available registeredBy os advice,
    fst (checkPort "5001" 2000 (Some netstatSample) (Doc [lease5000]))
    = reply 200 (Checked 5001 available registeredBy os advice)
    ∧ (available = true
       ↔ (5001 ∉ Store.port <$> pruneExpired 2000 (stored (Doc [lease5000])))
         ∧ ∀ output, Some netstatSample = Some output →
                     parsePorts output !! 5001 = None)
    ∧ (registeredBy = None
       ↔ 5001 ∉ Store.port <$> pruneExpired 2000 (stored (Doc [lease5000])))
    ∧ (∀ r, registeredBy = Some r →
         r ∈ pruneExpired 2000 (stored (Doc [lease5000]))
         ∧ Store.port r = 5001
         ∧ advice = RegisteredBy (agent r) (reason r))
    ∧ (os = None ↔ Some netstatSample = None).
Proof.
  apply (check_available_iff "5001" 2000 (Some netstatSample)
           (Doc [lease5000]) 5001); [reflexivity|lia].
Defined.

(** X12. When [netstat] could be run, the listing route returns the
    registrations alive at that time, in their order, with their number,
    and joins each with what [netstat] showed for its port: bound, with
    the pid, protocol and state of the binding, or not bound, with none of
    them.  A process name shown is the one [tasklist] gave for that pid. *)
Theorem listing_joins_bindings
    (now : Z) (output : string) (tasklist : option string) (f : file) :
  ∃ enriched,
    fst (listPorts now (Some output) tasklist f)
    = reply 200 (Listing enriched (length enriched))
    ∧ reg <$> enriched = pruneExpired now (stored f)
    ∧ Forall (λ e,
        match parsePorts output !! Store.port (reg e) with
        | Some b =>
            osInUse e = Some true ∧ osPid e = Some (pid b)
            ∧ osProto e = Some (proto b) ∧ osState e = Some (state b)
            ∧ ∀ name, osProcess e = Some name →
                      getPidMap tasklist !! pid b = Some name
        | None =>
            osInUse e = Some false ∧ osPid e = None ∧ osProto e = None
            ∧ osState e = None ∧ osProcess e = None
        end) enriched.
Proof.
  unfold listPorts. rewrite (loadData_eq f). simpl.
  eexists. split; [reflexivity|]. split.
  - induction (pruneExpired now (stored f)) as [|r l IH]; [done|].
    simpl. f_equal. exact IH.
  - induction (pruneExpired now (stored f)) as [|r l IH]; simpl;
      constructor; [|exact IH].
    simpl. unfold has.
    destruct (parsePorts output !! Store.port r) as [b|] eqn:Hb; simpl.
    + split_and!; try done.
      intros name. destruct (getPidMap tasklist !! pid b) as [n|]; [|done].
      destruct (String.eqb n ""); [done|]. by intros [= ->].
    + done.
Qed.

(** ** The system view *)

Lemma regMap_lookup_Some (l : list registration) (m : gmap Z registration)
    (p : Z) (r : registration) :
  fold_left (λ m r, <[Store.port r := r]> m) l m !! p = Some r →
  (r ∈ l ∧ Store.port r = p) ∨ m !! p = Some r.
Proof.
  revert m. induction l as [|y l IH]; intros m; simpl; [by right|].
  intros [[Hin Hp]|Hm]%IH.
  - left. split; [by apply list_elem_of_further|done].
  - destruct (decide (Store.port y = p)) as [Hy|Hy].
    + rewrite <- Hy, lookup_insert_eq in Hm. injection Hm as <-.
      left. split; [apply list_elem_of_here|done].
    + rewrite lookup_insert_ne in Hm by done. by right.
Qed.

Lemma regMap_lookup_None (l : list registration) (m : gmap Z registration)
    (p : Z) :
  fold_left (λ m r, <[Store.port r := r]> m) l m !! p = None →
  p ∉ Store.port <$> l.
Proof.
  revert m. induction l as [|y l IH]; intros m; simpl.
  - intros _. apply not_elem_of_nil.
  - intros Hnone. rewrite not_elem_of_cons.
    split; [|by eapply IH].
    intros ->. revert Hnone.
    assert (∀ k (m' : gmap Z registration), is_Some (m' !! Store.port y) →
            is_Some (fold_left (λ m r, <[Store.port r := r]> m) k m'
                     !! Store.port y)) as Hkeep.
    { induction k as [|z k IHk]; intros m' Hm'; simpl; [done|].
      apply IHk. destruct (decide (Store.port z = Store.port y)) as [->|].
      - rewrite lookup_insert_eq. eauto.
      - by rewrite lookup_insert_ne. }
    intros Hnone.
    destruct (Hkeep l (<[Store.port y := y]> m)) as [x Hx].
    + rewrite lookup_insert_eq. eauto.
    + congruence.
Qed.

Lemma regMapOf_registered (l : list registration) (p : Z) :
  has (regMapOf l) p = true ↔ p ∈ Store.port <$> l.
Proof.
  unfold has, regMapOf. rewrite bool_decide_eq_true. split.
  - intros [r [[Hin <-]|Hm]%regMap_lookup_Some].
    + by apply list_elem_of_fmap_2.
    + by rewrite lookup_empty in Hm.
  - intros Hin.
    destruct (fold_left _ l ∅ !! p) as [r|] eqn:Hr; [eauto|].
    by apply regMap_lookup_None in Hr.
Qed.

Lemma ascending_distinct (l : list Z) :
  StronglySorted Z.le l → NoDup l → StronglySorted Z.lt l.
Proof.
  induction 1 as [|x l Hsorted IH Hall]; intros Hnodup; constructor.
  - apply IH. by apply NoDup_cons in Hnodup as [_ ?].
  - apply NoDup_cons in Hnodup as [Hx _].
    rewrite Forall_forall in *. intros y Hy.
    specialize (Hall y Hy).
    destruct (decide (x = y)) as [->|]; [done|lia].
Qed.

(** X13. When [netstat] could be run, the system route returns one row
    for every bound port and no other, in strictly ascending order of
    port, with the binding [netstat] showed and the number of rows.  A row
    is marked registered exactly when a registration alive at that time
    holds its port, and the registration it carries is one of those.  The
    file keeps the registrations it had, the expired ones too. *)
Theorem system_view_lists_bound_ports
    (now : Z) (output : string) (tasklist : option string) (f : file) :
  ∃ rows,
    fst (systemPorts now (Some output) tasklist f)
    = reply 200 (SystemPorts rows (length rows))
    ∧ StronglySorted Z.lt (boundPort <$> rows)
    ∧ (∀ p, p ∈ boundPort <$> rows ↔ is_Some (parsePorts output !! p))
    ∧ Forall (λ row,
        parsePorts output !! boundPort row = Some (bound row)
        ∧ (registered row = true
           ↔ boundPort row ∈ Store.port <$> pruneExpired now (stored f))
        ∧ (registered row = true ↔ is_Some (registrationOf row))
        ∧ ∀ r, registrationOf row = Some r →
               r ∈ pruneExpired now (stored f)
               ∧ Store.port r = boundPort row) rows
    ∧ stored (snd (systemPorts now (Some output) tasklist f)) = stored f.
Proof.
  unfold systemPorts. rewrite (loadData_eq f). simpl.
  set (portMap := parsePorts output).
  set (pruned := pruneExpired now (stored f)).
  set (allPorts := merge_sort Z.le (map_to_list portMap).*1).
  assert (∀ p, p ∈ allPorts ↔ is_Some (portMap !! p)) as Hkeys.
  { intros p. unfold allPorts. rewrite merge_sort_Permutation.
    rewrite list_elem_of_fmap. split.
    - intros ([k b] & -> & Hin). apply elem_of_map_to_list in Hin. eauto.
    - intros [b Hb]. exists (p, b). split; [done|].
      by apply elem_of_map_to_list. }
  eexists. split; [reflexivity|].
  match goal with |- context [omap ?g allPorts] => set (row := g) end.
  assert (∀ l, Forall (λ p, is_Some (portMap !! p)) l →
               boundPort <$> omap row l = l) as Hrows.
  { induction 1 as [|p l [b Hb] _ IH]; [done|].
    simpl. unfold row at 1. rewrite Hb. simpl. f_equal. exact IH. }
  assert (boundPort <$> omap row allPorts = allPorts) as Hports.
  { apply Hrows, Forall_forall. intros p. apply Hkeys. }
  split_and!.
  - rewrite Hports. apply ascending_distinct.
    + apply StronglySorted_merge_sort; apply _.
    + unfold allPorts. rewrite merge_sort_Permutation.
      apply NoDup_fst_map_to_list.
  - intros p. by rewrite Hports.
  - apply Forall_forall. intros x (p & _ & Hrow)%list_elem_of_omap.
    unfold row in Hrow.
    destruct (portMap !! p) as [b|] eqn:Hb; [|discriminate].
    injection Hrow as <-. simpl. split_and!.
    + done.
    + apply regMapOf_registered.
    + unfold has. by rewrite bool_decide_eq_true.
    + intros r [[Hin Hp]|Hm]%regMap_lookup_Some; [done|].
      by rewrite lookup_empty in Hm.
  - by rewrite stored_after_load.
Qed.

(** ** Process names *)

(** A row of [tasklist] sets the name for its pid, whatever was there. *)
Lemma scanTask_lookup (m : gmap Js.num string) (line : string) (k : Js.num) :
  scanTask m line !! k
  = match scanTask ∅ line !! k with
    | Some name => Some name
    | None => m !! k
    end.
Proof.
  unfold scanTask.
  destruct (matchStart taskRow line) as [[|name [|pidStr [|]]]|];
    try by rewrite lookup_empty.
  destruct (decide (parseIntStr pidStr = k)) as [->|Hne].
  - by rewrite !lookup_insert_eq.
  - by rewrite !lookup_insert_ne, lookup_empty.
Qed.

Lemma scanTasks_lookup (lines : list string) (m : gmap Js.num string)
    (k : Js.num) :
  fold_left scanTask lines m !! k
  = match last (omap (λ line, scanTask ∅ line !! k) lines) with
    | Some name => Some name
    | None => m !! k
    end.
Proof.
  induction lines as [|line lines IH] using rev_ind; [done|].
  rewrite fold_left_app, omap_app. simpl.
  rewrite scanTask_lookup, IH.
  destruct (scanTask ∅ line !! k) as [name|]; simpl.
  - by rewrite last_snoc.
  - by rewrite app_nil_r.
Qed.

Lemma omap_all_None {A B} (g : A → option B) (l : list A) :
  (∀ x, x ∈ l → g x = None) → omap g l = [].
Proof.
  induction l as [|x l IH]; intros Hall; [done|]. simpl.
  rewrite (Hall x) by apply list_elem_of_here.
  apply IH. intros y Hy. by apply Hall, list_elem_of_further.
Qed.

(** X14. In the pid to name map read from [tasklist], a pid has the name
    of the last row that gives it one, and has none exactly when no row
    does; a row gives a name to the pid it carries after the name, and to
    no other.  When [tasklist] cannot be run the map is empty. *)
Theorem pid_map_last_row_wins (out : string) (k : Js.num) :
  let lines := splitLines out "" in
  (∀ before line after name,
     lines = before ++ line :: after →
     scanTask ∅ line !! k = Some name →
     (∀ later, later ∈ after → scanTask ∅ later !! k = None) →
     getPidMap (Some out) !! k = Some name)
  ∧ (getPidMap (Some out) !! k = None
     ↔ ∀ line, line ∈ lines → scanTask ∅ line !! k = None)
  ∧ (∀ line name,
       scanTask ∅ line !! k = Some name →
       ∃ pidStr, matchStart taskRow line = Some [name; pidStr]
                 ∧ k = parseIntStr pidStr)
  ∧ getPidMap None !! k = None.
Proof.
  intros lines. subst lines. unfold getPidMap. split_and!.
  - intros before line after name Hlines Hname Hlater.
    rewrite scanTasks_lookup, Hlines, omap_app.
    replace (omap (λ l, scanTask ∅ l !! k) (line :: after)) with [name].
    + by rewrite last_snoc.
    + simpl. rewrite Hname. simpl. by rewrite (omap_all_None _ after).
  - rewrite scanTasks_lookup, lookup_empty.
    induction (splitLines out "") as [|x l IH] using rev_ind.
    + split; [|done]. intros _ line Hin. by apply elem_of_nil in Hin.
    + rewrite omap_app. simpl.
      destruct (scanTask ∅ x !! k) as [name|] eqn:Hx; simpl.
      * rewrite last_snoc. split; [discriminate|].
        intros Hall. rewrite Hall in Hx; [discriminate|].
        apply elem_of_app. right. apply list_elem_of_here.
      * rewrite app_nil_r, IH. split.
        -- intros Hl line [Hin|Hin%list_elem_of_singleton]%elem_of_app;
             [by apply Hl|by subst].
        -- intros Hall line Hin. apply Hall, elem_of_app. by left.
  - intros line name. unfold scanTask.
    destruct (matchStart taskRow line) as [[|n [|pidStr [|]]]|];
      try by rewrite lookup_empty.
    destruct (decide (parseIntStr pidStr = k)) as [<-|Hne].
    + rewrite lookup_insert_eq. intros [= <-]. by exists pidStr.
    + by rewrite lookup_insert_ne, lookup_empty.
  - apply lookup_empty.
Qed.

Lemma pid_map_last_row_wins_witness :
  getPidMap (Some tasklistSample) !! Some 1044 = Some "code.exe".
Proof.
  destruct (pid_map_last_row_wins tasklistSample (Some 1044))
    as (Hlast & _).
  apply (Hlast [taskLine "node.exe" "1044"] (taskLine "code.exe" "1044") []).
  - vm_compute. reflexivity.
  - vm_compute. reflexivity.
  - intros later Hin. by apply elem_of_nil in Hin.
Defined.

(** ** What the file holds *)

Lemma trimStart_fixed (c : ascii) (s : string) :
  isSpace c = false → trimStart (String c s) = String c s.
Proof. intros Hc. simpl. by rewrite Hc. Qed.

Lemma trimStart_head (s : string) (c : ascii) (t : string) :
  trimStart s = String c t → isSpace c = false.
Proof.
  induction s as [|a s IH]; simpl; [discriminate|].
  destruct (isSpace a) eqn:Ha; [exact IH|]. by intros [= <- <-].
Qed.

Lemma trimEnd_head (c : ascii) (s : string) :
  isSpace c = false → ∃ t, trimEnd (String c s) = String c t.
Proof.
  intros Hc. simpl. destruct (trimEnd s); rewrite ?Hc; eauto.
Qed.

Lemma trimEnd_idempotent (s : string) : trimEnd (trimEnd s) = trimEnd s.
Proof.
  induction s as [|c s IH]; [done|]. simpl.
  destruct (trimEnd s) as [|c2 t] eqn:Ht.
  - destruct (isSpace c) eqn:Hc; [done|]. simpl. by rewrite Hc.
  - change (trimEnd (String c (String c2 t)) = String c (String c2 t)).
    remember (String c2 t) as u. simpl. rewrite IH. by subst u.
Qed.

Lemma trim_idempotent (s : string) : trim (trim s) = trim s.
Proof.
  unfold trim. destruct (trimStart s) as [|c u] eqn:Hs; [done|].
  pose proof (trimStart_head s c u Hs) as Hc.
  destruct (trimEnd_head c u Hc) as [t Ht].
  rewrite Ht, (trimStart_fixed c t Hc), <- Ht. apply trimEnd_idempotent.
Qed.

Lemma handle_members (rq : request) (f : file) (r' : registration) :
  r' ∈ stored (snd (handle rq f)) →
  r' ∈ stored f
  ∨ (∃ r now stamp, r ∈ stored f ∧ r' = refresh now stamp r)
  ∨ wellFormed r'.
Proof.
  destruct rq as [now netstat tasklist|now netstat tasklist
                 |portParam now netstat
                 |rport ragent rreason ttlMinutes pruneAt now stamp
                 |portParam ragent now stamp|portParam ragent|
                 |qmin qmax now netstat]; simpl.
  - rewrite listPorts_persists_pruned.
    intros [_ ?]%elem_of_pruneExpired. by left.
  - enter systemPorts f.
    destruct (getSystemPorts netstat); simpl;
      rewrite ?stored_after_load; by left.
  - enter checkPort f.
    destruct (parseIntStr portParam) as [port|]; [|by left].
    destruct (_ || _); simpl; [by left|].
    intros [_ ?]%elem_of_pruneExpired. by left.
  - destruct (register rport ragent rreason ttlMinutes pruneAt now stamp f)
      as [[st body] f'] eqn:Hout. simpl.
    destruct (decide (st = 201)) as [->|Hst].
    + assert (∃ r, body = Registered r) as [r ->].
      { revert Hout. enter register f.
        repeat case_match; intros [= <- <-]; try discriminate; eauto. }
      apply register_created_inv in Hout
        as (-> & _ & Hrange & Ha & Ha0 & Hr & Hr0).
      rewrite stored_saveData.
      intros Hin. apply elem_of_app in Hin
        as [[_ ?]%elem_of_pruneExpired|Heq%list_elem_of_singleton];
        [by left|]. subst r'.
      right. right. unfold wellFormed. split_and!; try lia; try done.
      * rewrite Ha. apply trim_idempotent.
      * rewrite Hr. apply trim_idempotent.
    + revert Hout. enter register f.
      repeat case_match; intros [= <- <- <-]; simpl;
        rewrite ?stored_after_load; try (by left); done.
  - enter heartbeat f.
    destruct (findPort _ _) as [[i r]|] eqn:Hfind; simpl;
      [|rewrite stored_after_load; by left].
    destruct (agentMismatch ragent r); simpl;
      [rewrite stored_after_load; by left|].
    apply findPort_Some in Hfind as [Hi _].
    rewrite stored_saveData. intros (j & Hj)%list_elem_of_lookup_1.
    destruct (decide (i = j)) as [<-|Hne].
    + rewrite list_lookup_insert_eq in Hj by (by eapply lookup_lt_Some).
      injection Hj as <-. right. left. exists r, now, stamp.
      split; [by eapply list_elem_of_lookup_2|done].
    + rewrite list_lookup_insert_ne in Hj by done.
      left. by eapply list_elem_of_lookup_2.
  - enter release f.
    destruct (findPort _ _) as [[i r]|] eqn:Hfind; simpl;
      [|rewrite stored_after_load; by left].
    destruct (agentMismatch ragent r); simpl;
      [rewrite stored_after_load; by left|].
    rewrite stored_saveData. intros Hin. left.
    eapply elem_of_sublist; [exact Hin|]. apply sublist_delete.
  - by intros ?%elem_of_nil.
  - rewrite suggest_file, stored_after_load. by left.
Qed.

(** X15. Whatever requests the server has served since the registry was
    empty, every registration in the file has a port of [1, 65535] and an
    agent and a reason that are not empty and carry no white space at
    either end. *)
Theorem stored_registrations_are_well_formed
    (f0 : file) (rqs : list request) (r : registration) :
  stored f0 = [] →
  r ∈ stored (serve rqs f0) →
  wellFormed r.
Proof.
  intros Hempty.
  assert (Forall wellFormed (stored f0)) as Hinv
    by (rewrite Hempty; constructor).
  clear Hempty. revert f0 Hinv.
  induction rqs as [|rq rqs IH]; intros f0 Hinv; simpl.
  - rewrite Forall_forall in Hinv. apply Hinv.
  - apply IH. apply Forall_forall. intros r' Hin.
    rewrite Forall_forall in Hinv.
    destruct (handle_members rq f0 r' Hin)
      as [Hold|[(x & now & stamp & Hx & ->)|Hnew]]; [by apply Hinv| |done].
    apply (Hinv x Hx).
Qed.

Lemma stored_registrations_are_well_formed_witness :
  wellFormed (created 8080 (VStr "  a ") (VStr "api ") (Some 1801000) 1000 7).
Proof.
  apply (stored_registrations_are_well_formed Missing
           [PostRegister (VStr "8080") (VStr "  a ") (VStr "api ")
              VUndefined 1000 1000 7]).
  - reflexivity.
  - apply list_elem_of_here.
Defined.

(** * The dashboard helpers *)

Import Dashboard.

(** ** Escaping *)

Lemma escapeHtml_cons (a : ascii) (s : string) :
  escapeHtml (String a s) = escapeChar a +:+ escapeHtml s.
Proof.
  unfold escapeHtml, escapeChar.
  destruct (Ascii.eqb_spec a "&") as [->|Hamp]; [reflexivity|].
  destruct (Ascii.eqb_spec a "<") as [->|Hlt]; [reflexivity|].
  destruct (Ascii.eqb_spec a ">") as [->|Hgt]; [reflexivity|].
  destruct (Ascii.eqb_spec a "034") as [->|Hquot]; [reflexivity|].
  destruct (Ascii.eqb_spec a "'") as [->|Hapos]; [reflexivity|].
  apply Ascii.eqb_neq in Hamp, Hlt, Hgt, Hquot, Hapos.
  simpl. rewrite Hamp. simpl. rewrite Hlt. simpl. rewrite Hgt. simpl.
  rewrite Hquot. simpl. by rewrite Hapos.
Qed.

Lemma append_assoc (a b c : string) : (a +:+ b) +:+ c = a +:+ (b +:+ c).
Proof.
  induction a as [|x a IH]; [done|].
  change (String x ((a +:+ b) +:+ c) = String x (a +:+ (b +:+ c))).
  by rewrite IH.
Qed.

Lemma append_empty_r (a : string) : a +:+ "" = a.
Proof.
  induction a as [|x a IH]; [done|].
  change (String x (a +:+ "") = String x a). by rewrite IH.
Qed.

Lemma chars_append (a b : string) :
  list_ascii_of_string (a +:+ b)
  = list_ascii_of_string a ++ list_ascii_of_string b.
Proof.
  induction a as [|x a IH]; [done|].
  change (x :: list_ascii_of_string (a +:+ b)
          = x :: (list_ascii_of_string a ++ list_ascii_of_string b)).
  by rewrite IH.
Qed.

Lemma escapeChar_no_markup (a c : ascii) :
  c ∈ list_ascii_of_string (escapeChar a) → markup c = false.
Proof.
  unfold escapeChar.
  destruct (Ascii.eqb_spec a "&") as [->|Hamp];
    [|destruct (Ascii.eqb_spec a "<") as [->|Hlt];
      [|destruct (Ascii.eqb_spec a ">") as [->|Hgt];
        [|destruct (Ascii.eqb_spec a "034") as [->|Hquot];
          [|destruct (Ascii.eqb_spec a "'") as [->|Hapos]]]]];
    simpl; intros Hin; repeat (apply elem_of_cons in Hin as [->|Hin]);
    try reflexivity; try (by apply elem_of_nil in Hin).
  unfold markup. apply Ascii.eqb_neq in Hlt, Hgt, Hquot, Hapos.
  by rewrite Hlt, Hgt, Hquot, Hapos.
Qed.

(** X16. Text that went through [escapeHtml] holds none of the characters
    [<], [>], the double quote and the single quote; escaping a
    concatenation is concatenating the escaped parts; and text without
    these characters and without [&] comes out as it went in. *)
Theorem escapeHtml_leaves_no_markup (s : string) :
  (∀ c, c ∈ list_ascii_of_string (escapeHtml s) → markup c = false)
  ∧ (∀ t, escapeHtml (s +:+ t) = escapeHtml s +:+ escapeHtml t)
  ∧ ((∀ c, c ∈ list_ascii_of_string s →
           markup c = false ∧ c ≠ "&"%char) →
     escapeHtml s = s).
Proof.
  split_and!.
  - induction s as [|a s IH]; intros c.
    + by intros ?%elem_of_nil.
    + rewrite escapeHtml_cons, chars_append, elem_of_app.
      intros [Hin|Hin]; [by eapply escapeChar_no_markup|by apply IH].
  - intros t. induction s as [|a s IH]; [done|].
    change (String a s +:+ t) with (String a (s +:+ t)).
    by rewrite !escapeHtml_cons, IH, append_assoc.
  - induction s as [|a s IH]; intros Hplain; [done|].
    rewrite escapeHtml_cons, IH.
    + destruct (Hplain a) as [Hm Hamp]; [apply list_elem_of_here|].
      unfold markup in Hm. apply Ascii.eqb_neq in Hamp.
      apply orb_false_iff in Hm as [[[Hlt Hgt]%orb_false_iff
                                      Hquot]%orb_false_iff Hapos].
      unfold escapeChar. by rewrite Hamp, Hlt, Hgt, Hquot, Hapos.
    + intros c Hc. apply Hplain. simpl. by apply list_elem_of_further.
Qed.

Lemma escapeHtml_leaves_no_markup_witness :
  escapeHtml "dev server" = "dev server".
Proof.
  apply (escapeHtml_leaves_no_markup "dev server").
  intros c Hin.
  repeat (apply elem_of_cons in Hin as [->|Hin]);
    try (split; [reflexivity|discriminate]).
  by apply elem_of_nil in Hin.
Defined.

(** X17. [escapeHtml] tells texts apart: two texts that escape to the
    same text are the same. *)
Theorem escapeHtml_injective (s t : string) :
  escapeHtml s = escapeHtml t → s = t.
Proof.
  revert t. induction s as [|a s IH]; intros [|b t].
  - done.
  - rewrite escapeHtml_cons. unfold escapeChar.
    repeat case_match; discriminate.
  - rewrite escapeHtml_cons. unfold escapeChar.
    repeat case_match; discriminate.
  - rewrite !escapeHtml_cons. unfold escapeChar.
    destruct (Ascii.eqb_spec a "&") as [->|Ha1];
      [|destruct (Ascii.eqb_spec a "<") as [->|Ha2];
        [|destruct (Ascii.eqb_spec a ">") as [->|Ha3];
          [|destruct (Ascii.eqb_spec a "034") as [->|Ha4];
            [|destruct (Ascii.eqb_spec a "'") as [->|Ha5]]]]];
      (destruct (Ascii.eqb_spec b "&") as [->|Hb1];
       [|destruct (Ascii.eqb_spec b "<") as [->|Hb2];
         [|destruct (Ascii.eqb_spec b ">") as [->|Hb3];
           [|destruct (Ascii.eqb_spec b "034") as [->|Hb4];
             [|destruct (Ascii.eqb_spec b "'") as [->|Hb5]]]]]);
      simpl; intros Heq; simplify_eq; try (f_equal; by apply IH).
Qed.

Lemma escapeHtml_injective_witness : "a<b" = "a<b".
Proof. apply (escapeHtml_injective "a<b" "a<b"). reflexivity. Defined.

(** ** Time left *)

(** X18. For a row with an expiry, the text of [formatRelative] gives the
    time left to within its last unit: [Expired] when the expiry has
    passed; seconds alone under a minute; minutes and seconds from one
    minute up to 60 minutes and 59 seconds; hours and minutes from 61
    minutes on, so that an hour sharp still reads as 60 minutes. *)
Theorem formatRelative_reads_back (instant now : Z) :
  instant ≠ 0 →
  let diff := instant - now in
  match formatRelative (Some instant) now with
  | NoTime => False
  | ExpiredText => diff < 0
  | SecondsOnly s => 0 ≤ s < 60 ∧ s * 1000 ≤ diff < (s + 1) * 1000
  | MinutesSeconds m s =>
      1 ≤ m ≤ 60 ∧ 0 ≤ s < 60
      ∧ m * 60000 + s * 1000 ≤ diff < m * 60000 + (s + 1) * 1000
  | HoursMinutes h m =>
      1 ≤ h ∧ 0 ≤ m < 60 ∧ 61 ≤ h * 60 + m
      ∧ (h * 60 + m) * 60000 ≤ diff < (h * 60 + m + 1) * 60000
  end.
Proof.
  intros Hnz diff. unfold formatRelative. simpl.
  destruct (Z.eqb_spec instant 0); [done|]. simpl. fold diff.
  destruct (Z.ltb_spec diff 0); [done|].
  destruct (Z.gtb_spec (diff / 60000) 60).
  - Z.to_euclidean_division_equations. lia.
  - destruct (Z.gtb_spec (diff / 60000) 0);
      Z.to_euclidean_division_equations; lia.
Qed.

Lemma formatRelative_reads_back_witness :
  match formatRelative (Some 3601000) 1000 with
  | NoTime => False
  | ExpiredText => 3601000 - 1000 < 0
  | SecondsOnly s =>
      0 ≤ s < 60 ∧ s * 1000 ≤ 3601000 - 1000 < (s + 1) * 1000
  | MinutesSeconds m s =>
      1 ≤ m ≤ 60 ∧ 0 ≤ s < 60
      ∧ m * 60000 + s * 1000 ≤ 3601000 - 1000
        < m * 60000 + (s + 1) * 1000
  | HoursMinutes h m =>
      1 ≤ h ∧ 0 ≤ m < 60 ∧ 61 ≤ h * 60 + m
      ∧ (h * 60 + m) * 60000 ≤ 3601000 - 1000 < (h * 60 + m + 1) * 60000
  end.
Proof. apply (formatRelative_reads_back 3601000 1000). lia. Defined.

(** An hour sharp. *)
Example formatRelative_one_hour :
  formatRelative (Some 3601000) 1000 = MinutesSeconds 60 0.
Proof. reflexivity. Qed.

(** X19. A row is flagged as expiring soon exactly when its text is
    [Expired] or shows less than five minutes; a row without expiry is
    never flagged. *)
Theorem expiring_soon_iff_under_five_minutes (isoStr : Js.num) (now : Z) :
  isExpiringSoon isoStr now = true
  ↔ match formatRelative isoStr now with
    | ExpiredText | SecondsOnly _ => True
    | MinutesSeconds m _ => m < 5
    | HoursMinutes _ _ | NoTime => False
    end.
Proof.
  unfold isExpiringSoon, formatRelative.
  destruct isoStr as [instant|]; simpl; [|split; [discriminate|done]].
  destruct (Z.eqb_spec instant 0); simpl; [split; [discriminate|done]|].
  destruct (Z.ltb_spec (instant - now) 0).
  - split; [done|]. intros _. apply Z.ltb_lt. lia.
  - destruct (Z.gtb_spec ((instant - now) / 60000) 60).
    + split; [|done]. intros Hlt%Z.ltb_lt.
      Z.to_euclidean_division_equations. lia.
    + destruct (Z.gtb_spec ((instant - now) / 60000) 0).
      * rewrite Z.ltb_lt. Z.to_euclidean_division_equations. lia.
      * split; [done|]. intros _. apply Z.ltb_lt.
        Z.to_euclidean_division_equations. lia.
Qed.

(** ** Searching the table *)

Lemma prefix_occurs (q s : string) :
  String.prefix q s = true ↔ ∃ after, s = q +:+ after.
Proof.
  revert s. induction q as [|a q IH]; intros s.
  - destruct s as [|b s]; simpl; (split; [intros _|done]);
      [by exists ""|by exists (String b s)].
  - destruct s as [|b s]; simpl.
    + split; [discriminate|]. intros [after Heq]. discriminate.
    + destruct (ascii_dec a b) as [->|Hne].
      * rewrite IH. split; intros [after Heq]; exists after.
        -- change (String b s = String b (q +:+ after)). by rewrite Heq.
        -- change (String b s = String b (q +:+ after)) in Heq.
           congruence.
      * split; [discriminate|]. intros [after Heq].
        change (String b s = String a (q +:+ after)) in Heq. congruence.
Qed.

Lemma includes_unfold (s q : string) :
  includes s q
  = if String.prefix q s then true
    else match s with
         | EmptyString => false
         | String _ rest => includes rest q
         end.
Proof. by destruct s. Qed.

Lemma includes_occursIn (s q : string) :
  includes s q = true ↔ occursIn q s.
Proof.
  unfold occursIn. induction s as [|a s IH]; rewrite includes_unfold.
  - destruct (String.prefix q "") eqn:Hp.
    + split; [|done]. intros _. apply prefix_occurs in Hp as [after Heq].
      by exists "", after.
    + split; [discriminate|]. intros ([|b before] & after & Heq).
      * apply not_true_iff_false in Hp. destruct Hp.
        apply prefix_occurs. by exists after.
      * discriminate.
  - destruct (String.prefix q (String a s)) eqn:Hp.
    + split; [|done]. intros _. apply prefix_occurs in Hp as [after Heq].
      by exists "", after.
    + rewrite IH. split.
      * intros (before & after & ->). by exists (String a before), after.
      * intros ([|b before] & after & Heq).
        -- apply not_true_iff_false in Hp. destruct Hp.
           apply prefix_occurs. by exists after.
        -- change (String a s = String b (before +:+ q +:+ after)) in Heq.
           injection Heq as -> ->. by exists before, after.
Qed.

(** X20. With nothing but white space in the search box the table shows
    every row.  Otherwise it shows, in their order, exactly the rows in
    which the text searched, trimmed and in lower case, occurs in the port
    number, in the agent in lower case or in the reason in lower case. *)
Theorem applyFilter_keeps_matching_rows
    (allRegistrations : list enrichedRegistration) (searchValue : string) :
  let q := toLowerCase (trim searchValue) in
  (q = "" → applyFilter allRegistrations searchValue = allRegistrations)
  ∧ (q ≠ "" →
     ∀ r, r ∈ applyFilter allRegistrations searchValue
          ↔ r ∈ allRegistrations
            ∧ (occursIn q (pretty (Store.port (reg r)))
               ∨ occursIn q (toLowerCase (agent (reg r)))
               ∨ occursIn q (toLowerCase (reason (reg r)))))
  ∧ applyFilter allRegistrations searchValue `sublist_of` allRegistrations.
Proof.
  intros q. unfold applyFilter. fold q. simpl. split_and!.
  - intros ->. done.
  - intros Hq. apply String.eqb_neq in Hq. rewrite Hq. simpl.
    intros r. rewrite !list_elem_of_In, filter_In, !orb_true_iff.
    rewrite !includes_occursIn. tauto.
  - destruct (negb (negb (String.eqb q ""))); [done|].
    induction allRegistrations as [|r l IH]; simpl; [done|].
    destruct (_ || _); [by apply sublist_skip|by apply sublist_cons].
Qed.

Lemma applyFilter_keeps_matching_rows_witness :
  applyFilter
    [{| reg := leaseOfA; osInUse := None; osPid := None; osProto := None;
        osState := None; osProcess := None |}] "   "
  = [{| reg := leaseOfA; osInUse := None; osPid := None; osProto := None;
        osState := None; osProcess := None |}].
Proof.
  apply (applyFilter_keeps_matching_rows
           [{| reg := leaseOfA; osInUse := None; osPid := None;
               osProto := None; osState := None; osProcess := None |}]
           "   ").
  reflexivity.
Defined.

(** A search in capitals finds the agent in small letters. *)
Example applyFilter_ignores_case :
  applyFilter
    [{| reg := leaseOfA; osInUse := None; osPid := None; osProto := None;
        osState := None; osProcess := None |};
     {| reg := staleLease; osInUse := None; osPid := None; osProto := None;
        osState := None; osProcess := None |}] " API "
  = [{| reg := leaseOfA; osInUse := None; osPid := None; osProto := None;
        osState := None; osProcess := None |};
     {| reg := staleLease; osInUse := None; osPid := None; osProto := None;
        osState := None; osProcess := None |}].
Proof. reflexivity. Qed.

(** ** The range of a suggestion *)

(** X21. Whether [netstat] could be run or not, a port the suggest route
    returns lies between the bounds it scans, which are 3000 and 9999
    when the query gives none; and when the lower bound is above the
    upper one the answer is 404. *)
Theorem suggestion_within_bounds
    (qmin qmax : value) (now : Z) (netstat : option string) (f : file) :
  suggestRange VUndefined VUndefined = (3000, 9999)
  ∧ (∀ p, fst (suggest qmin qmax now netstat f) = reply 200 (Suggested p) →
          (suggestRange qmin qmax).1 ≤ p ≤ (suggestRange qmin qmax).2)
  ∧ ((suggestRange qmin qmax).2 < (suggestRange qmin qmax).1 →
     fst (suggest qmin qmax now netstat f)
     = reply 404 (Failed NoneAvailable)).
Proof.
  split; [reflexivity|]. rewrite suggest_scan.
  destruct (suggestRange qmin qmax) as [lo hi]. simpl. split.
  - intros p. destruct (firstFree _ _ lo) as [p0|] eqn:Hscan; [|discriminate].
    intros [= <-]. apply firstFree_Some in Hscan as (Hin & _). lia.
  - intros Hlt. replace (Z.to_nat (hi - lo + 1)) with 0%nat by lia. done.
Qed.

Lemma suggestion_within_bounds_witness :
  fst (suggest (VStr "9000") (VStr "8000") 2000 None (Doc []))
  = reply 404 (Failed NoneAvailable).
Proof.
  apply (suggestion_within_bounds (VStr "9000") (VStr "8000") 2000 None
           (Doc [])).
  vm_compute. reflexivity.
Defined.
